(** * bmpmod: backward modelling of galaxy-cluster mass profiles

    A shallow embedding of the inference engine of the [massmod] package
    ([fit_temperature.py] and [posterior_mcmc.py]) and the properties of its
    specification.

    Conventions of the embedding.
    - A Python/NumPy float is an IEEE binary64 number: Rocq's primitive
      [float].  Values read from tables and sample rows are NumPy scalars,
      whose arithmetic never raises (division by zero gives an infinity or a
      NaN); Python's own [**] with a float exponent raises on overflow and
      on a zero base with a negative exponent.
    - A Python [int] is a [Z]; an index may be negative and then counts from
      the end.  The numbers of walkers and of steps are counts, in [nat].
    - A Python exception is a constructor of [exn].  A computation has an
      [outcome] (a value, a raised exception, or, for the [while] loop of
      [calc_rdelta_p], the fuel of the model running out) and a trace of the
      calls it made to [lnlike] and to [scipy.integrate.quad].
    - The functions and constants the two modules import from files outside
      the package sources ([mass_models], [density_models], [gen],
      [defaultparams], SciPy, NumPy's [log] and [sum], emcee's ensemble
      sampler, the random generator) are the fields of one record,
      [Extern].
    - [print] statements are left out. *)

From Stdlib Require Import ZArith Floats.
From stdpp Require Import base tactics option list strings gmap sorting.

Set Warnings "-inexact-float".

#[local] Open Scope Z_scope.

(** ** Python run-time model *)

Module Py.

(** The exceptions the modelled functions can raise, the [AssertionError] by
    which emcee refuses an ensemble, and the two error kinds of the
    specification's taxonomy, which no modelled function constructs. *)
Inductive exn : Type :=
  | IndexError
  | ValueError
  | TypeError
  | OverflowError
  | ZeroDivisionError
  | UnboundLocalError
  | AssertionError
  | ConfigurationError
  | DivergentSearchError.

(** A Python number as the external functions receive it. *)
Inductive pynum : Type :=
  | PyInt (z : Z)
  | PyFloat (f : float).

(** Observable calls: entering [lnlike], and a call of
    [scipy.integrate.quad] with its two bounds. *)
Inductive event : Type :=
  | Call_lnlike (theta : list float)
  | Call_quad (lo hi : pynum).

Inductive outcome (A : Type) : Type :=
  | Ok (a : A)
  | Raise (e : exn)
  | OutOfFuel.
Arguments Ok {A} a.
Arguments Raise {A} e.
Arguments OutOfFuel {A}.

(** A computation: its outcome and the calls it made, oldest first. *)
Definition M (A : Type) : Type := outcome A * list event.

Definition ret {A} (a : A) : M A := (Ok a, []).

Definition bind {A B} (m : M A) (k : A -> M B) : M B :=
  match m with
  | (Ok a, t) => let '(r, t') := k a in (r, t ++ t')
  | (Raise e, t) => (Raise e, t)
  | (OutOfFuel, t) => (OutOfFuel, t)
  end.

Definition raise {A} (e : exn) : M A := (Raise e, []).
Definition out_of_fuel {A} : M A := (OutOfFuel, []).
Definition tick (ev : event) : M unit := (Ok tt, [ev]).

Definition result {A} (m : M A) : outcome A := fst m.
Definition trace {A} (m : M A) : list event := snd m.

(** [seq[i]] for a Python [int] index: a negative index counts from the end,
    an index out of range raises [IndexError]. *)
Definition getitem {A} (l : list A) (i : Z) : M A :=
  let n := Z.of_nat (length l) in
  let j := if i <? 0 then i + n else i in
  if (0 <=? j) && (j <? n) then
    match l !! Z.to_nat j with
    | Some a => ret a
    | None => raise IndexError
    end
  else raise IndexError.

(** The integer part of a finite double, toward zero. *)
Definition trunc (s : bool) (m : positive) (e : Z) : Z :=
  let a := if 0 <=? e then Z.shiftl (Z.pos m) e
           else Z.shiftr (Z.pos m) (- e) in
  if s then - a else a.

(** [int(x)] on a float: truncation toward zero; [ValueError] on a NaN,
    [OverflowError] on an infinity. *)
Definition int_of_float (x : float) : M Z :=
  match Prim2SF x with
  | S754_zero _ => ret 0
  | S754_infinity _ => raise OverflowError
  | S754_nan => raise ValueError
  | S754_finite s m e => ret (trunc s m e)
  end.

(** The nearest double of an integer (ties to even); an infinity when the
    integer is beyond the range of a double. *)
Definition round_int (n : Z) : float :=
  SF2Prim (binary_normalize prec emax n 0 false).

(** [float(n)] on an [int]: [OverflowError] when [n] is too large. *)
Definition float_of_int (n : Z) : M float :=
  let f := round_int n in
  if is_infinity f then raise OverflowError else ret f.

(** The double a number denotes where NumPy or SciPy converts it. *)
Definition to_float (x : pynum) : float :=
  match x with
  | PyInt n => round_int n
  | PyFloat f => f
  end.

End Py.
Export Py.

Notation "'do' x <- c1 ;; c2" := (bind c1 (fun x => c2))
  (at level 10, x name, c1 at level 99, c2 at level 200,
   format "'[v' 'do'  x  <-  c1  ;;  '/' c2 ']'").
Notation "'run' c1 ;; c2" := (bind c1 (fun _ => c2))
  (at level 10, c1 at level 99, c2 at level 200,
   format "'[v' 'run'  c1  ;;  '/' c2 ']'").

(** ** Data model *)

(** [clustermeta]: the dictionary of cluster and analysis information.  The
    flags are Python ints compared with [== 1] and [== 0];
    [fit_temperature.py] reads ['incl_mstar'], [posterior_mcmc.py] reads
    ['count_mstar']. *)
Record cluster : Type := {
  cl_z : float;
  refindex : Z;
  incl_mstar : Z;
  incl_mgas : Z;
  count_mstar : Z;
  bcg_re : float;
  bcg_sersic_n : float
}.

(** [nemodel]: the fitted gas-density model. *)
Record nemodel : Type := {
  ne_type : string;
  parvals : list float;
  nefit : list float
}.

(** One row of the [tspec_data] table; a column is the projection of the list
    of rows, so all columns have the length of the table. *)
Record tspec_row : Type := {
  radius : float;
  tspec : float;
  tspec_err : float
}.

(** What the modules import from outside the package sources. *)
Record Extern : Type := {
  (* mass_models *)
  nfw_mass_model : pynum -> float -> float -> float -> float;
  sersic_mass_model : pynum -> float -> cluster -> float;
  gas_mass_model : pynum -> nemodel -> float;
  mgas_intmodel : pynum -> nemodel -> float;
  (* density_models *)
  betamodel : list float -> float -> float;
  cuspedbetamodel : list float -> float -> float;
  doublebetamodel : list float -> float -> float;
  doublebetamodel_tied : list float -> float -> float;
  (* gen, cosmo *)
  calc_rhocrit : float -> float;
  overdensity : float;
  (* defaultparams.uconv *)
  Msun : float;
  cm_kpc : float;
  cm_m : float;
  kpc_m : float;
  Msun_kg : float;
  joule_kev : float;
  mA : float;
  G : float;
  (* defaultparams.params *)
  mu : float;
  c_boundmin : float;
  c_boundmax : float;
  rs_boundmin : float;
  rs_boundmax : float;
  normsersic_boundmin : float;
  normsersic_boundmax : float;
  (* libm pow, numpy.log, numpy.sum *)
  pow : float -> float -> float;
  np_log : float -> float;
  np_sum : list float -> float;
  (* scipy.integrate.quad(f, a, b)[0] *)
  integrate : (float -> float) -> pynum -> pynum -> float;
  (* numpy.random.randn(ndim), by the number of the call *)
  randn : nat -> nat -> list float;
  (* emcee.EnsembleSampler(nwalkers, ndim, lnprob, args=...) run to the end
     by sampler.sample(pos, iterations): what sampler.chain holds afterwards,
     indexed by walker, then by step.  The sampler receives the
     log-probability as a computation; what it calls and whether it raises
     (emcee refuses some ensembles, and an exception of lnprob leaves the
     sampler) is its own. *)
  emcee_chain : nat -> nat -> (list float -> M float) ->
                list (list float) -> nat -> M (list (list (list float)))
}.

(** [np.pi]. *)
Definition np_pi : float := 0x1.921fb54442d18p+1%float.

(** ** fit_temperature.py *)

Section FitTemperature.

Context (E : Extern).

(** Python's [x ** y] for a float exponent (the base converted to a float
    first): [ZeroDivisionError] for a zero base with a negative exponent,
    [OverflowError] when finite operands give an infinite result. *)
Definition py_pow (x y : float) : M float :=
  if is_zero x && (y <? 0)%float then raise ZeroDivisionError
  else
    let r := pow E x y in
    if is_infinity r && is_finite x && is_finite y then raise OverflowError
    else ret r.

(** [scipy.integrate.quad(f, lo, hi)[0]]: the call is recorded; an integrand
    that returns [None] is refused with a [TypeError]. *)
Definition quad (f : float -> option float) (lo hi : pynum) : M float :=
  run tick (Call_quad lo hi) ;;
  match f (to_float lo) with
  | None => raise TypeError
  | Some _ => ret (integrate E (fun x => default nan (f x)) lo hi)
  end.

(** The density model the ['type'] tag of [nemodel] selects in [intmodel]. *)
Definition ne_func (ne : nemodel) : option (list float -> float -> float) :=
  if String.eqb (ne_type ne) "single_beta" then Some (betamodel E)
  else if String.eqb (ne_type ne) "cusped_beta" then Some (cuspedbetamodel E)
  else if String.eqb (ne_type ne) "double_beta" then Some (doublebetamodel E)
  else if String.eqb (ne_type ne) "double_beta_tied"
       then Some (doublebetamodel_tied E)
  else None.

(** [intmodel]: rho_gas * M_tot * r^-2, the integrand of the temperature
    model; [None] when no branch on the model type returns.  (The integrand
    runs inside the quadrature: there [**] is libm's [pow], and exceptions of
    Python's arithmetic are not followed.) *)
Definition intmodel (ne : nemodel) (rs c normsersic r_arr : float)
    (clustermeta : cluster) : option float :=
  let Mtot := nfw_mass_model E (PyFloat r_arr) c rs (cl_z clustermeta) in
  let Mtot := if incl_mstar clustermeta =? 1
              then (Mtot + sersic_mass_model E (PyFloat r_arr) normsersic
                            clustermeta)%float
              else Mtot in
  let Mtot := if incl_mgas clustermeta =? 1
              then (Mtot + gas_mass_model E (PyFloat r_arr) ne)%float
              else Mtot in
  match ne_func ne with
  | Some model =>
      Some (model (parvals ne) r_arr * (1 / Msun E) * pow E (cm_kpc E) (-3)
            * Mtot / pow E r_arr 2)%float
  | None => None
  end.

(** The body of the loop of [Tmodel_func] over [rr in range(0, len(tspec_data))]:
    [rows] are the rows from index [rr] on, [tfit_arr] the list built so far. *)
Fixpoint Tmodel_loop (ne : nemodel) (clustermeta : cluster)
    (c rs normsersic ne_ref tspec_ref radius_ref : float)
    (rows : list tspec_row) (rr : Z) (tfit_arr : list float)
    : M (list float) :=
  match rows with
  | [] => ret tfit_arr
  | row :: rest =>
      if rr =? refindex clustermeta then
        Tmodel_loop ne clustermeta c rs normsersic ne_ref tspec_ref radius_ref
          rest (rr + 1) (tfit_arr ++ [tspec row])
      else
        let radius_selected := radius row in
        do ne_selected <- getitem (nefit ne) rr ;;
        let intfunc := fun x => intmodel ne rs c normsersic x clustermeta in
        do cm_m3 <- py_pow (cm_m E) (-3) ;;
        let finfac_t := (mu E * mA E * G E / (ne_selected * cm_m3))%float in
        do Msun_kg2 <- py_pow (Msun_kg E) 2 ;;
        do kpc_m4 <- py_pow (kpc_m E) (-4) ;;
        do q <- quad intfunc (PyFloat radius_ref) (PyFloat radius_selected) ;;
        let tfit_r := (tspec_ref * ne_ref / ne_selected
                       - joule_kev E * finfac_t * Msun_kg2 * kpc_m4 * q)%float in
        Tmodel_loop ne clustermeta c rs normsersic ne_ref tspec_ref radius_ref
          rest (rr + 1) (tfit_arr ++ [tfit_r])
  end.

(** [Tmodel_func]: the model temperature at every radius of the observed
    profile.  (Its [ne_data] argument is never read and is left out.) *)
Definition Tmodel_func (tspec_data : list tspec_row) (ne : nemodel)
    (clustermeta : cluster) (c rs normsersic : float) : M (list float) :=
  do ne_ref <- getitem (nefit ne) (refindex clustermeta) ;;
  do tspec_ref <- getitem (tspec <$> tspec_data) (refindex clustermeta) ;;
  do radius_ref <- getitem (radius <$> tspec_data) (refindex clustermeta) ;;
  Tmodel_loop ne clustermeta c rs normsersic ne_ref tspec_ref radius_ref
    tspec_data 0 [].

(** NumPy's element-wise operation on two one-dimensional arrays: equal
    lengths, or one of them of length one (broadcast); [ValueError]
    otherwise. *)
Definition broadcast2 (op : float -> float -> float) (a b : list float)
    : M (list float) :=
  if Nat.eqb (length a) (length b) then ret (zip_with op a b)
  else match a, b with
       | [x], _ => ret (op x <$> b)
       | _, [y] => ret ((fun x => op x y) <$> a)
       | _, _ => raise ValueError
       end.

(** [lnlike]: the Gaussian log-likelihood of the observed temperatures [y]
    with errors [yerr] given the model profile.  (Its [x] and [ne_data]
    arguments are never read and are left out.)  Unpacking [theta] into the
    wrong number of names raises [ValueError]; with a flag that is neither 1
    nor 0 the names stay unbound. *)
Definition lnlike (theta y yerr : list float) (tspec_data : list tspec_row)
    (ne : nemodel) (clustermeta : cluster) : M float :=
  run tick (Call_lnlike theta) ;;
  do pars <-
    (if incl_mstar clustermeta =? 1 then
       match theta with
       | [c; rs; normsersic] => ret (c, rs, normsersic)
       | _ => raise ValueError
       end
     else if incl_mstar clustermeta =? 0 then
       match theta with
       | [c; rs] => ret (c, rs, 0%float)
       | _ => raise ValueError
       end
     else raise UnboundLocalError) ;;
  let '(c, rs, normsersic) := pars in
  do model <- Tmodel_func tspec_data ne clustermeta c rs normsersic ;;
  do diff <- broadcast2 PrimFloat.sub y model ;;
  let diff2 := (fun v => pow E v 2) <$> diff in
  let yerr2 := (fun v => pow E v 2) <$> yerr in
  do chi <- broadcast2 PrimFloat.div diff2 yerr2 ;;
  let norm := (fun v => np_log E (2 * np_pi * pow E v 2)%float) <$> yerr in
  do terms <- broadcast2 PrimFloat.add chi norm ;;
  ret (-0.5 * np_sum E terms)%float.

(** [lnprior]: 0 inside the bounds, minus infinity outside; Python's [None]
    (here [None]) when [len(theta)] is neither 3 nor 2, where the function
    ends without a [return]. *)
Definition lnprior (theta : list float)
    (c_boundmin c_boundmax rs_boundmin rs_boundmax
     normsersic_boundmin normsersic_boundmax : float) : option float :=
  match theta with
  | [c; rs; normsersic] =>
      if (c_boundmin <? c)%float && (c <? c_boundmax)%float
         && ((rs_boundmin <? rs)%float && (rs <? rs_boundmax)%float)
         && ((normsersic_boundmin <? normsersic)%float
             && (normsersic <? normsersic_boundmax)%float)
      then Some 0%float
      else Some neg_infinity
  | [c; rs] =>
      if (c_boundmin <? c)%float && (c <? c_boundmax)%float
         && ((rs_boundmin <? rs)%float && (rs <? rs_boundmax)%float)
      then Some 0%float
      else Some neg_infinity
  | _ => None
  end.

(** [lnprior(theta)] with the default bounds of [defaultparams.params], as
    [lnprob] calls it. *)
Definition lnprior_default (theta : list float) : option float :=
  lnprior theta (c_boundmin E) (c_boundmax E) (rs_boundmin E) (rs_boundmax E)
    (normsersic_boundmin E) (normsersic_boundmax E).

(** [lnprob]: the log-posterior.  [np.isfinite(None)] raises [TypeError]. *)
Definition lnprob (theta y yerr : list float) (tspec_data : list tspec_row)
    (ne : nemodel) (clustermeta : cluster) : M float :=
  match lnprior_default theta with
  | None => raise TypeError
  | Some lp =>
      if negb (is_finite lp) then ret neg_infinity
      else
        do ll <- lnlike theta y yerr tspec_data ne clustermeta ;;
        ret (lp + ll)%float
  end.

(** *** The MCMC stage *)

(** [a.reshape((-1, ndim))] on the flattened (row-major) elements of [a]. *)
Definition np_reshape (ndim : nat) (flat : list float)
    : M (list (list float)) :=
  match ndim with
  | O => raise ValueError
  | S _ =>
      if Nat.eqb (length flat `mod` ndim) 0
      then ret (reshape (replicate (length flat `div` ndim) ndim) flat)
      else raise ValueError
  end.

(** The walkers' starting positions,
    [[ml_results + 1e-4*np.random.randn(ndim) for i in range(nwalkers)]]. *)
Fixpoint initial_pos (ml_results : list float) (ndim : nat) (i n : nat)
    : M (list (list float)) :=
  match n with
  | O => ret []
  | S k =>
      do p <- broadcast2 PrimFloat.add ml_results
                ((fun v => (1e-4 * v)%float) <$> randn E i ndim) ;;
      do ps <- initial_pos ml_results ndim (S i) k ;;
      ret (p :: ps)
  end.

(** [fit_mcmc]: returns [samples] and the sampler's chain (indexed by walker,
    then by step).  The sampler is built and run by [emcee_chain]; nothing
    catches what it raises.  The number of threads [Ncores] does not enter
    the model.  [Nwalkers], [Nsteps] and [Nburnin] are counts. *)
Definition fit_mcmc (tspec_data : list tspec_row) (ne : nemodel)
    (clustermeta : cluster) (ml_results : list float)
    (Nwalkers Nsteps Nburnin : nat)
    : M (list (list float) * list (list (list float))) :=
  do dims <-
    (if incl_mstar clustermeta =? 1 then ret (3%nat, Nwalkers)
     else if incl_mstar clustermeta =? 0 then ret (2%nat, Nwalkers)
     else raise UnboundLocalError) ;;
  let '(ndim, nwalkers) := dims in
  do pos <- initial_pos ml_results ndim 0 nwalkers ;;
  let lnprobfn := fun theta =>
    lnprob theta (tspec <$> tspec_data) (tspec_err <$> tspec_data)
      tspec_data ne clustermeta in
  do chain <- emcee_chain E nwalkers ndim lnprobfn pos Nsteps ;;
  do samples <- np_reshape ndim (concat (concat (drop Nburnin <$> chain))) ;;
  ret (samples, chain).

End FitTemperature.

(** *** The maximum-likelihood stage *)

Section FitMl.

Context (E : Extern).

(** [scipy.optimize.minimize(fun, x0, args=..., bounds=...)["x"]]: the
    optimiser receives the objective as a computation, the starting point
    and one pair of bounds per parameter; what it calls and returns is its
    own. *)
Context (minimize : (list float -> M float) -> list float ->
                    list (float * float) -> M (list float)).

(** [fit_ml]: the maximum-likelihood estimate, [None] when the stellar-mass
    flag is neither 1 nor 0 and the function ends without a [return].
    Unpacking the optimiser's result into the wrong number of names raises
    [ValueError].  (Its [ne_data] argument is only passed on.) *)
Definition fit_ml (tspec_data : list tspec_row) (ne : nemodel)
    (clustermeta : cluster)
    (c_guess c_boundmin c_boundmax rs_guess rs_boundmin rs_boundmax
     normsersic_guess normsersic_boundmin normsersic_boundmax : float)
    : M (option (list float)) :=
  let nll := fun theta =>
    do v <- lnlike E theta (tspec <$> tspec_data) (tspec_err <$> tspec_data)
              tspec_data ne clustermeta ;;
    ret (- v)%float in
  if incl_mstar clustermeta =? 1 then
    do x <- minimize nll [c_guess; rs_guess; normsersic_guess]
              [(c_boundmin, c_boundmax); (rs_boundmin, rs_boundmax);
               (normsersic_boundmin, normsersic_boundmax)] ;;
    match x with
    | [c_ml; rs_ml; normsersic_ml] => ret (Some [c_ml; rs_ml; normsersic_ml])
    | _ => raise ValueError
    end
  else if incl_mstar clustermeta =? 0 then
    do x <- minimize nll [c_guess; rs_guess]
              [(c_boundmin, c_boundmax); (rs_boundmin, rs_boundmax)] ;;
    match x with
    | [c_ml; rs_ml] => ret (Some [c_ml; rs_ml])
    | _ => raise ValueError
    end
  else ret None.

End FitMl.

(** ** posterior_mcmc.py *)

Section PosteriorMcmc.

Context (E : Extern).

(** The local variables of [calc_rdelta_p] that the radius search updates;
    [mass_dev] is unbound ([None]) until an assignment reaches it. *)
Record search_state : Type := {
  rdelta_tot : Z;
  mass_nfw : float;
  mass_dev : option float;
  mass_gas : float;
  mass_tot : float;
  ratio : float
}.

(** Reading a local variable. *)
Definition read_var (v : option float) : M float :=
  match v with
  | Some x => ret x
  | None => raise UnboundLocalError
  end.

(** The statements of [calc_rdelta_p] up to the [while] loop: the masses and
    the overdensity ratio at the seed radius [rdelta_dm = c*rs], and the
    integer the search starts from.  The row is a NumPy row, so [c*rs] and
    [rdelta_dm**3.] do not raise. *)
Definition search_init (row : list float) (ne : nemodel) (cl : cluster)
    : M (float * float * float * search_state) :=
  do c <- getitem row 0 ;;
  do rs <- getitem row 1 ;;
  do normsersic <-
    (if count_mstar cl =? 1 then getitem row 2 else ret 0%float) ;;
  let mass_dev := if count_mstar cl =? 1 then None
                  else if count_mstar cl =? 0 then Some 0%float
                  else None in
  let rdelta_dm := (c * rs)%float in
  let mass_nfw := nfw_mass_model E (PyFloat rdelta_dm) c rs (cl_z cl) in
  let mass_dev :=
    if count_mstar cl =? 1
    then Some (sersic_mass_model E (PyFloat rdelta_dm) normsersic cl
               * Msun E)%float
    else mass_dev in
  let intfunc := fun x : float =>
    Some (mgas_intmodel E (PyFloat rdelta_dm) ne) in
  do q <- quad E intfunc (PyInt 0) (PyFloat rdelta_dm) ;;
  let mass_gas := (q * Msun E)%float in
  do dev <- read_var mass_dev ;;
  let mass_tot := (mass_nfw + dev + mass_gas)%float in
  let rho_crit := calc_rhocrit E (cl_z cl) in
  let ratio := (mass_tot / (4 / 3 * np_pi * pow E rdelta_dm 3)
                / rho_crit)%float in
  do rdelta_tot <- int_of_float rdelta_dm ;;
  ret (c, rs, normsersic,
       {| rdelta_tot := rdelta_tot; mass_nfw := mass_nfw;
          mass_dev := mass_dev; mass_gas := mass_gas;
          mass_tot := mass_tot; ratio := ratio |}).

(** One pass through the body of [while ratio > cosmo.overdensity]. *)
Definition search_step (c rs normsersic : float) (ne : nemodel)
    (cl : cluster) (st : search_state) : M search_state :=
  let rdelta_tot := rdelta_tot st + 1 in
  let mass_nfw := nfw_mass_model E (PyInt rdelta_tot) c rs (cl_z cl) in
  let mass_dev :=
    if count_mstar cl =? 1
    then Some (sersic_mass_model E (PyInt rdelta_tot) normsersic cl
               * Msun E)%float
    else mass_dev st in
  let intfunc := fun x : float =>
    Some (mgas_intmodel E (PyInt rdelta_tot) ne) in
  do q <- quad E intfunc (PyInt 0) (PyInt rdelta_tot) ;;
  let mass_gas := (q * Msun E)%float in
  do dev <- read_var mass_dev ;;
  let mass_tot := (mass_nfw + dev + mass_gas)%float in
  let rho_crit := calc_rhocrit E (cl_z cl) in
  do r <- float_of_int rdelta_tot ;;
  do r3 <- py_pow E r 3 ;;
  let ratio := (mass_tot / (4 / 3 * np_pi * r3) / rho_crit)%float in
  ret {| rdelta_tot := rdelta_tot; mass_nfw := mass_nfw;
         mass_dev := mass_dev; mass_gas := mass_gas;
         mass_tot := mass_tot; ratio := ratio |}.

(** The [while] loop; [fuel] bounds the number of passes the model follows,
    the source has no such bound. *)
Fixpoint search (fuel : nat) (c rs normsersic : float) (ne : nemodel)
    (cl : cluster) (st : search_state) : M search_state :=
  if (overdensity E <? ratio st)%float then
    match fuel with
    | O => out_of_fuel
    | S fuel' =>
        do st' <- search_step c rs normsersic ne cl st ;;
        search fuel' c rs normsersic ne cl st'
    end
  else ret st.

(** [calc_rdelta_p]: [(rdelta, mdelta, mdm, mstars, mgas)] for one sample. *)
Definition calc_rdelta_p (fuel : nat) (row : list float) (ne : nemodel)
    (cl : cluster) : M (Z * float * float * float * float) :=
  do init <- search_init row ne cl ;;
  let '(c, rs, normsersic, st0) := init in
  do st <- search fuel c rs normsersic ne cl st0 ;;
  do dev <- read_var (mass_dev st) ;;
  ret (rdelta_tot st, mass_tot st / Msun E, mass_nfw st / Msun E,
       dev / Msun E, mass_gas st / Msun E)%float.

(** [calc_posterior_mcmc]: [calc_rdelta_p] on every row of [samples], in
    the order of the rows ([joblib.Parallel] keeps it), gathered by
    [np.array] into rows of five doubles. *)
Fixpoint calc_posterior_mcmc (fuel : nat) (samples : list (list float))
    (ne : nemodel) (cl : cluster) : M (list (list float)) :=
  match samples with
  | [] => ret []
  | row :: rest =>
      do r <- calc_rdelta_p fuel row ne cl ;;
      let '(rdelta, mdelta, mdm, mstars, mgas) := r in
      do rs <- calc_posterior_mcmc fuel rest ne cl ;;
      ret ([round_int rdelta; mdelta; mdm; mstars; mgas] :: rs)
  end.

(** *** Percentiles *)

(** The columns of a two-dimensional array given by its rows. *)
Definition columns (a : list (list float)) : list (list float) :=
  match a with
  | [] => []
  | r :: _ =>
      (fun j => (fun row : list float => default nan (row !! j)) <$> a)
        <$> seq 0 (length r)
  end.

Fixpoint insert_sorted (x : float) (l : list float) : list float :=
  match l with
  | [] => [x]
  | y :: l' => if (x <=? y)%float then x :: l else y :: insert_sorted x l'
  end.

Definition np_sort (l : list float) : list float := foldr insert_sorted [] l.

(** The largest natural number not above a non-negative finite double. *)
Definition floor_nat (x : float) : nat :=
  match Prim2SF x with
  | S754_finite false m e => Z.to_nat (trunc false m e)
  | _ => O
  end.

(** [np.percentile(col, q)] with NumPy's default, linear interpolation: on
    the sorted column the value at the fractional position [q/100 * (N-1)],
    the two neighbouring order statistics weighted by the distance to them;
    NaN for an empty column or one that holds a NaN. *)
Definition np_percentile (col : list float) (q : float) : float :=
  match col with
  | [] => nan
  | _ :: _ =>
      if existsb is_nan col then nan
      else
        let ap := np_sort col in
        let Nx := length col in
        let index := (q / 100 * round_int (Z.of_nat (Nx - 1)))%float in
        let below := floor_nat index in
        let above := Nat.min (below + 1) (Nx - 1) in
        let weights_above := (index - round_int (Z.of_nat below))%float in
        let weights_below := (1 - weights_above)%float in
        (default nan (ap !! below) * weights_below
         + default nan (ap !! above) * weights_above)%float
  end.

(** [np.percentile(a, [16, 50, 84], axis=0)] transposed by [zip]: for every
    column its 16th, 50th and 84th percentile. *)
Definition percentiles (a : list (list float))
    : list (float * float * float) :=
  (fun col => (np_percentile col 16, np_percentile col 50,
               np_percentile col 84)) <$> columns a.

(** [lambda v: (v[1], v[2]-v[1], v[1]-v[0])]. *)
Definition estimate (v : float * float * float) : float * float * float :=
  let '(v0, v1, v2) := v in (v1, v2 - v1, v1 - v0)%float.

(** [map(lambda v: ..., zip(...np.percentile(a, [16, 50, 84], axis=0)))]:
    the estimate of every column; on an array without rows [np.percentile]
    raises [IndexError]. *)
Definition estimates (a : list (list float))
    : M (list (float * float * float)) :=
  match a with
  | [] => raise IndexError
  | _ :: _ => ret (estimate <$> percentiles a)
  end.

(** [samples_results]: the dictionary of point estimates and error bars.
    Unpacking into the wrong number of names raises [ValueError]; with a
    flag that is neither 1 nor 0, [c_mcmc] is unbound where it is printed. *)
Definition samples_results (samples samples_aux : list (list float))
    (cl : cluster) : M (gmap string (float * float * float)) :=
  do free <-
    (if count_mstar cl =? 1 then
       do v <- estimates samples ;;
       match v with
       | [c_mcmc; rs_mcmc; normsersic_mcmc] =>
           ret (Some (c_mcmc, rs_mcmc, Some normsersic_mcmc))
       | _ => raise ValueError
       end
     else if count_mstar cl =? 0 then
       do v <- estimates samples ;;
       match v with
       | [c_mcmc; rs_mcmc] => ret (Some (c_mcmc, rs_mcmc, None))
       | _ => raise ValueError
       end
     else ret None) ;;
  do aux <-
    (do v <- estimates samples_aux ;;
     match v with
     | [rdelta_mcmc; mdelta_mcmc; mdm_mcmc; mstars_mcmc; mgas_mcmc] =>
         ret (rdelta_mcmc, mdelta_mcmc, mdm_mcmc, mstars_mcmc, mgas_mcmc)
     | _ => raise ValueError
     end) ;;
  let '(rdelta_mcmc, mdelta_mcmc, mdm_mcmc, mstars_mcmc, mgas_mcmc) := aux in
  match free with
  | None => raise UnboundLocalError
  | Some (c_mcmc, rs_mcmc, normsersic_mcmc) =>
      let mcmc_results : gmap string (float * float * float) := ∅ in
      let mcmc_results := <["c" := c_mcmc]> mcmc_results in
      let mcmc_results := <["rs" := rs_mcmc]> mcmc_results in
      let mcmc_results := <["rdelta" := rdelta_mcmc]> mcmc_results in
      let mcmc_results := <["mdelta" := mdelta_mcmc]> mcmc_results in
      let mcmc_results := <["mdm" := mdm_mcmc]> mcmc_results in
      let mcmc_results := <["mgas" := mgas_mcmc]> mcmc_results in
      if count_mstar cl =? 1 then
        match normsersic_mcmc with
        | Some normsersic_mcmc =>
            let mcmc_results :=
              <["normsersic" := normsersic_mcmc]> mcmc_results in
            let mcmc_results := <["mstars" := mstars_mcmc]> mcmc_results in
            ret mcmc_results
        | None => raise UnboundLocalError
        end
      else ret mcmc_results
  end.

End PosteriorMcmc.

(** ** A small instance of the external functions

    Closed-form stand-ins on which the model runs: a halo mass
    [16000*c*r], a stellar mass [10*normsersic*r] switched on by
    [count_mstar] or [incl_mstar], a gas integrand [r], a one-panel
    trapezoid rule for the quadrature, unit conversion factors, and a sampler
    that checks what emcee checks and then rejects every proposal. *)

Module Demo.

#[local] Open Scope float_scope.

Definition libm_pow (x y : float) : float :=
  if y =? 3 then x * x * x
  else if y =? 2 then x * x
  else if y =? -3 then 1 / (x * x * x)
  else if y =? -4 then 1 / (x * x * (x * x))
  else nan.

Definition trapezoid (f : float -> float) (lo hi : pynum) : float :=
  (to_float hi - to_float lo) * (f (to_float lo) + f (to_float hi)) / 2.

(** The log-probability at every position of the ensemble, in order. *)
Fixpoint get_lnprob (lnprobfn : list float -> M float)
    (p : list (list float)) : M (list float) :=
  match p with
  | [] => ret []
  | theta :: rest =>
      do lp <- lnprobfn theta ;;
      do lps <- get_lnprob lnprobfn rest ;;
      ret (lp :: lps)
  end.

(** A sampler whose walkers never move.  As emcee does, it refuses an odd
    number of walkers and fewer walkers than twice the dimension
    ([AssertionError]) and starting positions that are not [nwalkers] rows of
    [ndim] ([ValueError]), evaluates the log-probability at the starting
    positions, passing on what that raises, and refuses a NaN among the
    values ([ValueError]). *)
Definition stationary_sampler (nwalkers ndim : nat)
    (lnprobfn : list float -> M float) (pos : list (list float))
    (iterations : nat) : M (list (list (list float))) :=
  if Nat.odd nwalkers || (nwalkers <? 2 * ndim)%nat then raise AssertionError
  else if negb ((length pos =? nwalkers)%nat
                && forallb (fun theta : list float =>
                              (length theta =? ndim)%nat) pos)
  then raise ValueError
  else
    do lp <- get_lnprob lnprobfn pos ;;
    if existsb is_nan lp then raise ValueError
    else ret ((fun theta => replicate iterations theta) <$> pos).

Definition extern : Extern := {|
  nfw_mass_model := fun r c rs z => 16000 * c * to_float r;
  sersic_mass_model := fun r normsersic cl => 10 * normsersic * to_float r;
  gas_mass_model := fun r ne => to_float r * to_float r / 2;
  mgas_intmodel := fun r ne => to_float r;
  betamodel := fun pars r => 1 / (1 + r * r);
  cuspedbetamodel := fun pars r => 1 / (1 + r * r);
  doublebetamodel := fun pars r => 1 / (1 + r * r);
  doublebetamodel_tied := fun pars r => 1 / (1 + r * r);
  calc_rhocrit := fun z => 1;
  overdensity := 500;
  Msun := 1;
  cm_kpc := 1;
  cm_m := 1;
  kpc_m := 1;
  Msun_kg := 1;
  joule_kev := 1;
  mA := 1;
  G := 1;
  mu := 0.5;
  c_boundmin := 1;
  c_boundmax := 20;
  rs_boundmin := 50;
  rs_boundmax := 1000;
  normsersic_boundmin := 5;
  normsersic_boundmax := 10;
  pow := libm_pow;
  np_log := fun x => x - 1;
  np_sum := foldl PrimFloat.add 0;
  integrate := trapezoid;
  randn := fun i ndim => replicate ndim 0;
  emcee_chain := stationary_sampler
|}.

Definition single_beta : nemodel :=
  {| ne_type := "single_beta"; parvals := [1; 1];
     nefit := [0.003; 0.0012] |}.

Definition meta (ref mstar : Z) : cluster :=
  {| cl_z := 0.5; refindex := ref; incl_mstar := mstar; incl_mgas := 1;
     count_mstar := mstar; bcg_re := 10; bcg_sersic_n := 4 |}.

Definition profile : list tspec_row :=
  [ {| radius := 100; tspec := 3; tspec_err := 0.5 |};
    {| radius := 200; tspec := 1.8; tspec_err := 0.5 |} ].

End Demo.

(** ** Vocabulary of the properties *)

(** [clean m]: [m] raises neither of the two error kinds that only the
    specification names. *)
Definition clean {A} (m : M A) : Prop :=
  result m <> Raise ConfigurationError /\
  result m <> Raise DivergentSearchError.

(** [x] lies strictly between [lo] and [hi]: the test [lo < x < hi]. *)
Definition strictly_inside (lo x hi : float) : Prop :=
  (lo <? x)%float = true /\ (x <? hi)%float = true.

(** [x] lies in the half-open interval from [lo] (included) to [hi]. *)
Definition half_open (lo x hi : float) : Prop :=
  (lo <=? x)%float = true /\ (x <? hi)%float = true.

(** The rows of the profile other than the one at index [refindex], when the
    first of [rows] has index [rr]. *)
Fixpoint skip_ref (refindex rr : Z) (rows : list tspec_row)
    : list tspec_row :=
  match rows with
  | [] => []
  | row :: rest =>
      if rr =? refindex then skip_ref refindex (rr + 1) rest
      else row :: skip_ref refindex (rr + 1) rest
  end.

(** [passes k st st' t]: from the state [st] the loop makes [k] passes, each
    entered because the ratio exceeds the target overdensity and each ending
    without an exception, and reaches [st'] having made the calls [t]. *)
Inductive passes (E : Extern) (c rs normsersic : float) (ne : nemodel)
    (cl : cluster) : nat -> search_state -> search_state -> list event -> Prop :=
  | passes_O st : passes E c rs normsersic ne cl 0 st st []
  | passes_S k st st1 st' t1 t :
      (overdensity E <? ratio st)%float = true ->
      search_step E c rs normsersic ne cl st = (Ok st1, t1) ->
      passes E c rs normsersic ne cl k st1 st' t ->
      passes E c rs normsersic ne cl (S k) st st' (t1 ++ t).

(** Column [j] of an array given by its rows. *)
Definition column (j : nat) (a : list (list float)) : list float :=
  (fun row : list float => default nan (row !! j)) <$> a.

(** The reported triple of one quantity: the median, the 84th percentile
    minus the median, the median minus the 16th percentile. *)
Definition summary (col : list float) : float * float * float :=
  (np_percentile col 50,
   (np_percentile col 84 - np_percentile col 50)%float,
   (np_percentile col 50 - np_percentile col 16)%float).

(** The fractional rank of the [q]-th percentile among [N] values in
    non-decreasing order, counted from 0: [q/100 * (N - 1)]. *)
Definition rank (N : nat) (q : float) : float :=
  (q / 100 * round_int (Z.of_nat (N - 1)))%float.

(** Whether the rank is zero or positive and finite, with its integer part
    below [N]. *)
Definition rank_within (N : nat) (q : float) : bool :=
  match Prim2SF (rank N q) with
  | S754_zero _ => (0 <? N)%nat
  | S754_finite false _ _ => (floor_nat (rank N q) <? N)%nat
  | _ => false
  end.

(** [integer_part x k]: in exact arithmetic [k <= x < k + 1], for a double
    [x] that is zero or positive and finite, [x = m * 2^e]. *)
Definition integer_part (x : float) (k : nat) : Prop :=
  match Prim2SF x with
  | S754_zero _ => k = 0%nat
  | S754_finite false m e =>
      if 0 <=? e then Z.of_nat k = Z.pos m * 2 ^ e
      else Z.of_nat k * 2 ^ (- e) <= Z.pos m < (Z.of_nat k + 1) * 2 ^ (- e)
  | _ => False
  end.

(** [interpolates col q v]: [v] is the [q]-th percentile of the values of
    [col] by linear interpolation between order statistics.  With [k] the
    integer part of the rank and [w] the rest of it, and the values of [col]
    put in non-decreasing order, [v] is the value at position [k] weighted by
    [1 - w] plus the next value (the last one, where there is no next)
    weighted by [w].  It is said of a column that holds no NaN and of a rank
    that lies within the column. *)
Definition interpolates (col : list float) (q v : float) : Prop :=
  forall k : nat,
    Forall (fun x => is_nan x = false) col ->
    integer_part (rank (length col) q) k -> (k < length col)%nat ->
    exists (s : list float) (lo hi : float),
      s ≡ₚ col /\
      Sorted (fun a b => (a <=? b)%float = true) s /\
      s !! k = Some lo /\
      s !! Nat.min (k + 1) (length col - 1) = Some hi /\
      v = (lo * (1 - (rank (length col) q - round_int (Z.of_nat k)))
           + hi * (rank (length col) q - round_int (Z.of_nat k)))%float.

(** [reports m key col]: under [key] the dictionary [m] holds the triple
    (median, 84th percentile - median, median - 16th percentile) of the
    values of [col], the three percentiles interpolated linearly between
    order statistics. *)
Definition reports (m : gmap string (float * float * float)) (key : string)
    (col : list float) : Prop :=
  exists p16 p50 p84 : float,
    m !! key = Some (p50, (p84 - p50)%float, (p50 - p16)%float) /\
    interpolates col 16 p16 /\
    interpolates col 50 p50 /\
    interpolates col 84 p84.

(** The log-probability function [fit_mcmc] gives the sampler: [lnprob] with
    the columns of the temperature table as its arguments. *)
Definition lnprob_args (E : Extern) (tspec_data : list tspec_row)
    (ne : nemodel) (cl : cluster) (theta : list float) : M float :=
  lnprob E theta (tspec <$> tspec_data) (tspec_err <$> tspec_data)
    tspec_data ne cl.

(** [chain_shape nwalkers nsteps ndim chain]: the chain has the shape
    [(nwalkers, nsteps, ndim)]. *)
Definition chain_shape (nwalkers nsteps ndim : nat)
    (chain : list (list (list float))) : Prop :=
  length chain = nwalkers /\
  Forall (fun h => length h = nsteps) chain /\
  Forall (Forall (fun theta : list float => length theta = ndim)) chain.

(** [avoids e m]: the computation [m] does not raise [e]. *)
Definition avoids {A} (e : exn) (m : M A) : Prop := result m <> Raise e.

(** [evaluated_at r st]: the masses held in [st] are those the code computes
    at the radius [r]: the halo mass, the gas term (the quadrature over
    (0, r) of the constant [mgas_intmodel(r)]), the stellar term (the Sersic
    mass when the stellar mass is counted, 0 when it is not), and their
    sum. *)
Definition evaluated_at (E : Extern) (c rs normsersic : float) (ne : nemodel)
    (cl : cluster) (r : pynum) (st : search_state) : Prop :=
  mass_nfw st = nfw_mass_model E r c rs (cl_z cl) /\
  mass_gas st
  = (integrate E (fun _ => mgas_intmodel E r ne) (PyInt 0) r * Msun E)%float /\
  (count_mstar cl = 1 ->
   mass_dev st = Some (sersic_mass_model E r normsersic cl * Msun E)%float) /\
  (count_mstar cl = 0 -> mass_dev st = Some 0%float) /\
  exists dev, mass_dev st = Some dev /\
              mass_tot st = (mass_nfw st + dev + mass_gas st)%float.

(** The row [np.array] makes of one result of [calc_rdelta_p]. *)
Definition aux_row (r : Z * float * float * float * float) : list float :=
  let '(rdelta, mdelta, mdm, mstars, mgas) := r in
  [round_int rdelta; mdelta; mdm; mstars; mgas].

(** The keys of the dictionary [samples_results] returns. *)
Definition result_keys (cl : cluster) : gset string :=
  if count_mstar cl =? 1
  then {[ "c"; "rs"; "rdelta"; "mdelta"; "mdm"; "mgas";
          "normsersic"; "mstars" ]}
  else {[ "c"; "rs"; "rdelta"; "mdelta"; "mdm"; "mgas" ]}.

(** * Properties *)

(** ** The computation monad *)

Lemma bind_ret {A B} (a : A) (k : A -> M B) : bind (ret a) k = k a.
Proof. unfold bind, ret. destruct (k a) as [r t]. reflexivity. Qed.

(** A computation bound to a continuation returns only if both return, and
    then its calls are those of the first followed by those of the second. *)
Lemma bind_Ok {A B} (m : M A) (k : A -> M B) (b : B) (t : list event) :
  bind m k = (Ok b, t) ->
  exists a t1 t2, m = (Ok a, t1) /\ k a = (Ok b, t2) /\ t = t1 ++ t2.
Proof.
  destruct m as [[a| |] t1]; simpl; try discriminate.
  destruct (k a) as [r t2] eqn:Hk. intros [= -> <-]. eauto 6.
Qed.

Lemma result_bind_Ok {A B} (m : M A) (k : A -> M B) (a : A) :
  result m = Ok a -> result (bind m k) = result (k a).
Proof.
  destruct m as [r t]; simpl. intros ->. simpl. destruct (k a); reflexivity.
Qed.

(** ** Which exceptions can be raised *)

Lemma clean_ret {A} (a : A) : clean (ret a).
Proof. split; discriminate. Qed.

Lemma clean_out_of_fuel {A} : clean (@out_of_fuel A).
Proof. split; discriminate. Qed.

Lemma clean_bind {A B} (m : M A) (k : A -> M B) :
  clean m -> (forall a, clean (k a)) -> clean (bind m k).
Proof.
  intros [H1 H2] Hk. destruct m as [[a| e |] t]; unfold clean; simpl in *.
  - specialize (Hk a). destruct (k a) as [r t']. exact Hk.
  - split; intros [= ->]; [ apply H1 | apply H2 ]; reflexivity.
  - split; discriminate.
Qed.

Lemma clean_getitem {A} (l : list A) (i : Z) : clean (getitem l i).
Proof.
  unfold getitem. repeat case_match; split; discriminate.
Qed.

Lemma clean_int_of_float (x : float) : clean (int_of_float x).
Proof. unfold int_of_float. case_match; split; discriminate. Qed.

Lemma clean_float_of_int (n : Z) : clean (float_of_int n).
Proof. unfold float_of_int. case_match; split; discriminate. Qed.

Lemma clean_py_pow (E : Extern) (x y : float) : clean (py_pow E x y).
Proof. unfold py_pow. repeat case_match; split; discriminate. Qed.

Lemma clean_quad (E : Extern) f lo hi : clean (quad E f lo hi).
Proof.
  unfold quad, tick, bind, raise, ret.
  destruct (f (to_float lo)); split; discriminate.
Qed.

Lemma clean_read_var (v : option float) : clean (read_var v).
Proof. destruct v; split; discriminate. Qed.

Create HintDb clean.
#[local] Hint Resolve clean_ret clean_out_of_fuel clean_getitem
  clean_int_of_float clean_float_of_int clean_py_pow clean_quad
  clean_read_var : clean.

Ltac clean_step :=
  lazymatch goal with
  | |- clean (bind _ _) => apply clean_bind; [ | intros ? ]
  | |- clean (if ?b then _ else _) => destruct b
  | |- clean (match ?x with _ => _ end) => destruct x
  | |- clean (let '(_, _) := ?x in _) => destruct x
  | |- clean _ => solve [ auto with clean | split; discriminate ]
  end.

Lemma clean_search_init E row ne cl : clean (search_init E row ne cl).
Proof. unfold search_init. repeat clean_step. Qed.

Lemma clean_search_step E c rs normsersic ne cl st :
  clean (search_step E c rs normsersic ne cl st).
Proof. unfold search_step. repeat clean_step. Qed.

Lemma clean_search E fuel c rs normsersic ne cl st :
  clean (search E fuel c rs normsersic ne cl st).
Proof.
  revert st. induction fuel as [|fuel IH]; intros st; simpl.
  - repeat clean_step.
  - destruct (overdensity E <? ratio st)%float; [ | apply clean_ret ].
    apply clean_bind; [ apply clean_search_step | exact IH ].
Qed.

Lemma clean_calc_rdelta_p E fuel row ne cl :
  clean (calc_rdelta_p E fuel row ne cl).
Proof.
  unfold calc_rdelta_p.
  apply clean_bind; [ apply clean_search_init | intros [[[c rs] n] st0] ].
  apply clean_bind; [ apply clean_search | intros st ].
  repeat clean_step.
Qed.

(** ** The run-time model on small inputs *)

Lemma runtime_examples :
  int_of_float 2.75 = ret 2 /\
  int_of_float (-2.75) = ret (-2) /\
  int_of_float 1500 = ret 1500 /\
  int_of_float nan = raise ValueError /\
  int_of_float infinity = raise OverflowError /\
  float_of_int 1501 = ret 1501%float /\
  float_of_int (2 ^ 1024) = raise OverflowError /\
  getitem [10; 20; 30] 0 = ret 10 /\
  getitem [10; 20; 30] (-1) = ret 30 /\
  getitem [10; 20; 30] 3 = raise IndexError /\
  getitem [10; 20; 30] (-4) = raise IndexError /\
  py_pow Demo.extern 0 (-3) = raise ZeroDivisionError /\
  py_pow Demo.extern 1e200 3 = raise OverflowError /\
  py_pow Demo.extern 1501 3 = ret 3381754501%float.
Proof. repeat split; vm_compute; reflexivity. Qed.

(** ** The log-prior *)

Lemma strictly_inside_test lo x hi :
  strictly_inside lo x hi <-> (lo <? x)%float && (x <? hi)%float = true.
Proof. unfold strictly_inside. rewrite andb_true_iff. reflexivity. Qed.

Lemma zero_is_not_neg_infinity : 0%float <> neg_infinity.
Proof.
  intros H. apply (f_equal is_infinity) in H. vm_compute in H. discriminate.
Qed.

(** C2, as the code has it: with two parameters, and with three, [lnprior] is
    exactly 0 when every component lies strictly between its two bounds, both
    bounds excluded, and exactly minus infinity when some component does
    not. *)
Theorem lnprior_open_bounds (c rs normsersic : float)
    (cmin cmax rsmin rsmax nmin nmax : float) :
  (strictly_inside cmin c cmax /\ strictly_inside rsmin rs rsmax ->
   lnprior [c; rs] cmin cmax rsmin rsmax nmin nmax = Some 0%float) /\
  (~ (strictly_inside cmin c cmax /\ strictly_inside rsmin rs rsmax) ->
   lnprior [c; rs] cmin cmax rsmin rsmax nmin nmax = Some neg_infinity) /\
  (strictly_inside cmin c cmax /\ strictly_inside rsmin rs rsmax /\
   strictly_inside nmin normsersic nmax ->
   lnprior [c; rs; normsersic] cmin cmax rsmin rsmax nmin nmax
   = Some 0%float) /\
  (~ (strictly_inside cmin c cmax /\ strictly_inside rsmin rs rsmax /\
      strictly_inside nmin normsersic nmax) ->
   lnprior [c; rs; normsersic] cmin cmax rsmin rsmax nmin nmax
   = Some neg_infinity).
Proof.
  rewrite !strictly_inside_test. unfold lnprior.
  destruct ((cmin <? c)%float && (c <? cmax)%float);
    destruct ((rsmin <? rs)%float && (rs <? rsmax)%float);
    destruct ((nmin <? normsersic)%float && (normsersic <? nmax)%float);
    simpl; repeat split; intros H; try reflexivity;
    solve [ destruct H as (? & ? & ?); discriminate
          | destruct H as (? & ?); discriminate
          | exfalso; apply H; repeat split; reflexivity ].
Qed.

Lemma lnprior_open_bounds_witness :
  lnprior [5; 300]%float 1 20 50 1000 5 10 = Some 0%float /\
  lnprior [20; 300]%float 1 20 50 1000 5 10 = Some neg_infinity /\
  lnprior [5; 300; 7]%float 1 20 50 1000 5 10 = Some 0%float /\
  lnprior [5; 300; 11]%float 1 20 50 1000 5 10 = Some neg_infinity.
Proof.
  split; [ | split; [ | split ] ].
  - apply (lnprior_open_bounds 5 300 7 1 20 50 1000 5 10).
    repeat split; reflexivity.
  - apply (lnprior_open_bounds 20 300 7 1 20 50 1000 5 10).
    intros [[_ H] _]. vm_compute in H. discriminate.
  - apply (lnprior_open_bounds 5 300 7 1 20 50 1000 5 10).
    repeat split; reflexivity.
  - apply (lnprior_open_bounds 5 300 11 1 20 50 1000 5 10).
    intros (_ & _ & _ & H). vm_compute in H. discriminate.
Defined.

(** C2 as stated fails: a concentration equal to its lower bound lies in the
    half-open interval, and so does the scale radius, yet the prior is minus
    infinity; likewise with three parameters. *)
Lemma lnprior_lower_bound_rejected :
  half_open 1 1 20 /\ half_open 50 300 1000 /\ half_open 5 7 10 /\
  lnprior [1; 300]%float 1 20 50 1000 5 10 = Some neg_infinity /\
  lnprior [1; 300; 7]%float 1 20 50 1000 5 10 = Some neg_infinity.
Proof. repeat split; reflexivity. Qed.

(** C10, as the code has it: for a [theta] whose length is neither 2 nor 3,
    [lnprior] returns [None] and raises nothing; [lnprob] then fails with the
    [TypeError] of [np.isfinite(None)], before any call of the likelihood. *)
Theorem lnprior_other_dimension (E : Extern) (theta y yerr : list float)
    (tspec_data : list tspec_row) (ne : nemodel) (cl : cluster)
    (cmin cmax rsmin rsmax nmin nmax : float) :
  length theta <> 2%nat -> length theta <> 3%nat ->
  lnprior theta cmin cmax rsmin rsmax nmin nmax = None /\
  lnprob E theta y yerr tspec_data ne cl = (Raise TypeError, []).
Proof.
  intros H2 H3.
  assert (Hnone : forall a b c d e f, lnprior theta a b c d e f = None).
  { intros. destruct theta as [|? [|? [|? [|? ?]]]]; simpl in *;
      try reflexivity; congruence. }
  split; [ apply Hnone | ].
  unfold lnprob, lnprior_default. rewrite Hnone. reflexivity.
Qed.

Lemma lnprior_other_dimension_witness :
  lnprior [5]%float 1 20 50 1000 5 10 = None /\
  lnprob Demo.extern [5]%float [3; 1.8]%float [0.5; 0.5]%float
    Demo.profile Demo.single_beta (Demo.meta 1 0) = (Raise TypeError, []).
Proof.
  apply (lnprior_other_dimension Demo.extern [5]%float); simpl; lia.
Defined.

(** C10 as stated fails: for a one-parameter and for a four-parameter [theta]
    the log-prior returns [None] where the claim has a ConfigurationError,
    and the error [lnprob] raises is a [TypeError]. *)
Lemma lnprior_returns_nothing :
  lnprior [5]%float 1 20 50 1000 5 10 = None /\
  lnprior [5; 300; 7; 1]%float 1 20 50 1000 5 10 = None /\
  result (lnprob Demo.extern [5; 300; 7; 1]%float [3; 1.8]%float
            [0.5; 0.5]%float Demo.profile Demo.single_beta (Demo.meta 1 1))
  = Raise TypeError.
Proof. repeat split; reflexivity. Qed.

(** ** The log-posterior *)

Lemma lnprior_length23 (theta : list float) cmin cmax rsmin rsmax nmin nmax :
  length theta = 2%nat \/ length theta = 3%nat ->
  lnprior theta cmin cmax rsmin rsmax nmin nmax = Some 0%float \/
  lnprior theta cmin cmax rsmin rsmax nmin nmax = Some neg_infinity.
Proof.
  intros H. destruct theta as [|c [|rs [|n [|? ?]]]]; simpl in H;
    try (exfalso; lia); unfold lnprior; case_match; auto.
Qed.

(** C5: for [theta] of length 2 or 3 the prior is 0 or minus infinity.  When
    it is minus infinity, [lnprob] returns minus infinity and makes no call
    at all: neither [lnlike] nor the quadrature is entered, whatever the
    likelihood would have been.  When it is finite, [lnprob] is the
    likelihood computation followed by the sum [lnprior + lnlike]. *)
Theorem lnprob_short_circuit (E : Extern) (theta y yerr : list float)
    (tspec_data : list tspec_row) (ne : nemodel) (cl : cluster) :
  length theta = 2%nat \/ length theta = 3%nat ->
  exists lp,
    lnprior_default E theta = Some lp /\
    (lp = neg_infinity \/ is_finite lp = true) /\
    (lp = neg_infinity ->
     lnprob E theta y yerr tspec_data ne cl = (Ok neg_infinity, [])) /\
    (is_finite lp = true ->
     lnprob E theta y yerr tspec_data ne cl
     = do ll <- lnlike E theta y yerr tspec_data ne cl ;;
       ret (lp + ll)%float).
Proof.
  intros Hlen. unfold lnprob.
  destruct (lnprior_length23 theta (c_boundmin E) (c_boundmax E)
              (rs_boundmin E) (rs_boundmax E) (normsersic_boundmin E)
              (normsersic_boundmax E) Hlen) as [H|H];
    fold (lnprior_default E theta) in H; rewrite H.
  - exists 0%float. split; [ reflexivity | ]. split; [ | split ].
    + right. reflexivity.
    + intros Habs. destruct (zero_is_not_neg_infinity Habs).
    + intros _. reflexivity.
  - exists neg_infinity. split; [ reflexivity | ]. split; [ | split ].
    + left. reflexivity.
    + intros _. reflexivity.
    + intros Habs. vm_compute in Habs. discriminate.
Qed.

Lemma lnprob_short_circuit_witness :
  lnprob Demo.extern [1; 300]%float [3; 1.8]%float [0.5; 0.5]%float
    Demo.profile Demo.single_beta (Demo.meta 1 0) = (Ok neg_infinity, []) /\
  lnprob Demo.extern [5; 300]%float [3; 1.8]%float [0.5; 0.5]%float
    Demo.profile Demo.single_beta (Demo.meta 1 0)
  = (do ll <- lnlike Demo.extern [5; 300]%float [3; 1.8]%float
                [0.5; 0.5]%float Demo.profile Demo.single_beta
                (Demo.meta 1 0) ;;
     ret (0 + ll)%float).
Proof.
  split.
  - destruct (lnprob_short_circuit Demo.extern [1; 300]%float [3; 1.8]%float
                [0.5; 0.5]%float Demo.profile Demo.single_beta
                (Demo.meta 1 0)) as (lp & Hlp & _ & Hinf & _).
    + left. reflexivity.
    + apply Hinf. vm_compute in Hlp. injection Hlp as <-. reflexivity.
  - destruct (lnprob_short_circuit Demo.extern [5; 300]%float [3; 1.8]%float
                [0.5; 0.5]%float Demo.profile Demo.single_beta
                (Demo.meta 1 0)) as (lp & Hlp & _ & _ & Hfin).
    + left. reflexivity.
    + vm_compute in Hlp. injection Hlp as <-. apply Hfin. reflexivity.
Defined.

(** ** The temperature model *)

Lemma getitem_trace {A} (l : list A) (i : Z) : trace (getitem l i) = [].
Proof. unfold getitem. repeat case_match; reflexivity. Qed.

Lemma py_pow_trace (E : Extern) (x y : float) : trace (py_pow E x y) = [].
Proof. unfold py_pow. repeat case_match; reflexivity. Qed.

Lemma quad_Ok (E : Extern) f lo hi (q : float) (t : list event) :
  quad E f lo hi = (Ok q, t) -> t = [Call_quad lo hi].
Proof.
  unfold quad, tick, bind, raise, ret.
  destruct (f (to_float lo)); simpl; intros [= _ <-]; reflexivity.
Qed.

Lemma getitem_nat {A} (l : list A) (i : nat) (a : A) :
  l !! i = Some a -> getitem l (Z.of_nat i) = ret a.
Proof.
  intros H. pose proof (lookup_lt_Some _ _ _ H) as Hlt. unfold getitem.
  destruct (Z.of_nat i <? 0) eqn:Hneg; [ apply Z.ltb_lt in Hneg; lia | ].
  rewrite Nat2Z.id, H.
  destruct ((0 <=? Z.of_nat i) && (Z.of_nat i <? Z.of_nat (length l))) eqn:Hr;
    [ reflexivity | ].
  apply andb_false_iff in Hr as [Hr|Hr];
    [ apply Z.leb_gt in Hr | apply Z.ltb_ge in Hr ]; lia.
Qed.

Lemma Tmodel_loop_Ok (E : Extern) ne cl c rs normsersic ne_ref tspec_ref
    radius_ref (rows : list tspec_row) :
  forall (rr : Z) (acc tfit : list float) (t : list event),
    Tmodel_loop E ne cl c rs normsersic ne_ref tspec_ref radius_ref
      rows rr acc = (Ok tfit, t) ->
    exists vals,
      tfit = acc ++ vals /\
      length vals = length rows /\
      (forall (i : nat) row, rows !! i = Some row ->
         rr + Z.of_nat i = refindex cl -> vals !! i = Some (tspec row)) /\
      t = (fun row => Call_quad (PyFloat radius_ref) (PyFloat (radius row)))
            <$> skip_ref (refindex cl) rr rows.
Proof.
  induction rows as [|row rest IH]; intros rr acc tfit t H; simpl in H.
  - injection H as <- <-. exists []. rewrite app_nil_r.
    repeat split; try reflexivity. intros i row Hi. discriminate.
  - simpl. destruct (rr =? refindex cl) eqn:Href.
    + apply IH in H as (vals & -> & Hlen & Hat & ->).
      exists (tspec row :: vals). rewrite <- app_assoc. simpl.
      repeat split; [ lia | ].
      intros [|i] row' Hi Hrr; simpl in *.
      * congruence.
      * apply Hat; [ exact Hi | lia ].
    + apply bind_Ok in H as (ne_sel & t1 & t1' & H1 & H & ->).
      apply bind_Ok in H as (cm_m3 & t2 & t2' & H2 & H & ->).
      apply bind_Ok in H as (Msun_kg2 & t3 & t3' & H3 & H & ->).
      apply bind_Ok in H as (kpc_m4 & t4 & t4' & H4 & H & ->).
      apply bind_Ok in H as (q & t5 & t5' & H5 & H & ->).
      apply (f_equal snd) in H1, H2, H3, H4. simpl in H1, H2, H3, H4.
      pose proof (getitem_trace (nefit ne) rr) as G1.
      pose proof (py_pow_trace E (cm_m E) (-3)) as G2.
      pose proof (py_pow_trace E (Msun_kg E) 2) as G3.
      pose proof (py_pow_trace E (kpc_m E) (-4)) as G4.
      unfold trace in G1, G2, G3, G4.
      rewrite G1 in H1. rewrite G2 in H2. rewrite G3 in H3. rewrite G4 in H4.
      subst t1 t2 t3 t4. apply quad_Ok in H5 as ->.
      apply IH in H as (vals & -> & Hlen & Hat & ->).
      eexists (_ :: vals). rewrite <- app_assoc. simpl.
      repeat split; [ lia | ].
      intros [|i] row' Hi Hrr; simpl in *.
      * apply Z.eqb_neq in Href. lia.
      * apply Hat; [ exact Hi | lia ].
Qed.

(** X5.  The anchor condition where it holds: for a reference index counted
    from the start of the profile, the model temperature at that index is the
    observed one, and the quadrature is called once for every other row, from
    the radius of the reference row to the radius of that row, and not for
    the reference row. *)
Lemma Tmodel_func_anchor (E : Extern) (tspec_data : list tspec_row)
    (ne : nemodel) (cl : cluster) (c rs normsersic : float)
    (tfit : list float) (t : list event) :
  0 <= refindex cl ->
  Tmodel_func E tspec_data ne cl c rs normsersic = (Ok tfit, t) ->
  exists ref_row,
    tspec_data !! Z.to_nat (refindex cl) = Some ref_row /\
    getitem (radius <$> tspec_data) (refindex cl) = ret (radius ref_row) /\
    tfit !! Z.to_nat (refindex cl) = Some (tspec ref_row) /\
    length tfit = length tspec_data /\
    t = (fun row =>
           Call_quad (PyFloat (radius ref_row)) (PyFloat (radius row)))
          <$> skip_ref (refindex cl) 0 tspec_data.
Proof.
  intros Hpos H. unfold Tmodel_func in H.
  apply bind_Ok in H as (ne_ref & t1 & t1' & H1 & H & ->).
  apply bind_Ok in H as (tspec_ref & t2 & t2' & H2 & H & ->).
  apply bind_Ok in H as (radius_ref & t3 & t3' & H3 & H & ->).
  pose proof (getitem_trace (nefit ne) (refindex cl)) as G1.
  pose proof (getitem_trace (tspec <$> tspec_data) (refindex cl)) as G2.
  pose proof (getitem_trace (radius <$> tspec_data) (refindex cl)) as G3.
  unfold trace in G1, G2, G3.
  rewrite H1 in G1. rewrite H2 in G2. rewrite H3 in G3. simpl in G1, G2, G3.
  subst t1 t2 t3. simpl.
  apply Tmodel_loop_Ok in H as (vals & -> & Hlen & Hat & ->).
  unfold getitem in H2.
  destruct (refindex cl <? 0) eqn:Hneg; [ apply Z.ltb_lt in Hneg; lia | ].
  destruct ((0 <=? refindex cl)
            && (refindex cl <? Z.of_nat (length (tspec <$> tspec_data))));
    [ | discriminate ].
  destruct ((tspec <$> tspec_data) !! Z.to_nat (refindex cl)) as [x|] eqn:Hx;
    [ | discriminate ].
  apply list_lookup_fmap_Some in Hx as (row & -> & Hrow).
  assert (Hradius : getitem (radius <$> tspec_data) (refindex cl)
                    = ret (radius row)).
  { rewrite <- (Z2Nat.id (refindex cl)) by exact Hpos.
    apply getitem_nat. rewrite list_lookup_fmap, Hrow. reflexivity. }
  rewrite Hradius in H3. injection H3 as <-.
  exists row. simpl. repeat split; try assumption.
  apply (Hat _ _ Hrow). lia.
Qed.

Lemma skip_ref_negative (refindex rr : Z) (rows : list tspec_row) :
  refindex < 0 -> 0 <= rr -> skip_ref refindex rr rows = rows.
Proof.
  intros Hneg. revert rr. induction rows as [|row rest IH]; intros rr Hrr;
    simpl; [ reflexivity | ].
  destruct (rr =? refindex) eqn:Heq; [ apply Z.eqb_eq in Heq; lia | ].
  rewrite IH by lia. reflexivity.
Qed.

(** X6.  Where the anchor condition is missed: for a reference index counted
    from the end of the profile no row is skipped, the quadrature is called
    for every row, the reference row included. *)
Lemma Tmodel_func_index_from_end (E : Extern) (tspec_data : list tspec_row)
    (ne : nemodel) (cl : cluster) (c rs normsersic : float)
    (tfit : list float) (t : list event) :
  refindex cl < 0 ->
  Tmodel_func E tspec_data ne cl c rs normsersic = (Ok tfit, t) ->
  exists radius_ref,
    getitem (radius <$> tspec_data) (refindex cl) = ret radius_ref /\
    t = (fun row => Call_quad (PyFloat radius_ref) (PyFloat (radius row)))
          <$> tspec_data.
Proof.
  intros Hneg H. unfold Tmodel_func in H.
  apply bind_Ok in H as (ne_ref & t1 & t1' & H1 & H & ->).
  apply bind_Ok in H as (tspec_ref & t2 & t2' & H2 & H & ->).
  apply bind_Ok in H as (radius_ref & t3 & t3' & H3 & H & ->).
  pose proof (getitem_trace (nefit ne) (refindex cl)) as G1.
  pose proof (getitem_trace (tspec <$> tspec_data) (refindex cl)) as G2.
  pose proof (getitem_trace (radius <$> tspec_data) (refindex cl)) as G3.
  unfold trace in G1, G2, G3.
  rewrite H1 in G1. rewrite H2 in G2. rewrite H3 in G3. simpl in G1, G2, G3.
  subst t1 t2 t3. simpl.
  apply Tmodel_loop_Ok in H as (vals & -> & Hlen & Hat & ->).
  exists radius_ref. split; [ exact H3 | ].
  rewrite skip_ref_negative by lia. reflexivity.
Qed.

(** C1 fails on the code for a reference index counted from the end.  With
    [refindex = -1], the reference row is the last one and its observed
    temperature is 1.8; no loop index equals -1, so that row too goes
    through the quadrature, over the empty interval from 200 to 200, and the
    value returned for it is [1.8*0.0012/0.0012], which is not 1.8. *)
Theorem Tmodel_func_negative_refindex :
  Tmodel_func Demo.extern Demo.profile Demo.single_beta (Demo.meta (-1) 0)
    5 300 0
  = (Ok [751.17204578481358; 1.8000000000000003]%float,
     [Call_quad (PyFloat 200) (PyFloat 100);
      Call_quad (PyFloat 200) (PyFloat 200)]) /\
  getitem (tspec <$> Demo.profile) (-1) = ret 1.8%float /\
  getitem (radius <$> Demo.profile) (-1) = ret 200%float /\
  (1.8000000000000003 =? 1.8)%float = false.
Proof. repeat split; vm_compute; reflexivity. Qed.

(** ** The MCMC stage *)

Lemma initial_pos_shape (E : Extern) (ml_results : list float) (ndim : nat) :
  length ml_results = ndim ->
  (forall i, length (randn E i ndim) = ndim) ->
  forall n i, exists pos,
    initial_pos E ml_results ndim i n = ret pos /\
    length pos = n /\
    Forall (fun theta => length theta = ndim) pos.
Proof.
  intros Hml Hrandn. induction n as [|n IH]; intros i; simpl.
  - exists []. repeat split. constructor.
  - destruct (IH (S i)) as (ps & -> & Hlen & Hdim).
    unfold broadcast2. rewrite length_fmap, Hml, Hrandn, Nat.eqb_refl.
    rewrite !bind_ret. eexists. split; [ reflexivity | ]. split.
    + simpl. lia.
    + constructor; [ | exact Hdim ].
      rewrite length_zip_with, length_fmap, Hml, Hrandn. lia.
Qed.

Lemma length_concat_rows {A} (rows : list (list A)) (n : nat) :
  Forall (fun r => length r = n) rows ->
  length (concat rows) = (length rows * n)%nat.
Proof.
  induction 1 as [|r rows Hr _ IH]; simpl; [ reflexivity | ].
  rewrite length_app, IH, Hr. lia.
Qed.

Lemma drop_rows_shape {A} (chain : list (list A)) (n b : nat) :
  Forall (fun h => length h = n) chain ->
  Forall (fun h => length h = (n - b)%nat) (drop b <$> chain).
Proof.
  induction 1 as [|h chain Hh _ IH]; simpl; constructor; [ | exact IH ].
  rewrite length_drop, Hh. reflexivity.
Qed.

Lemma drop_rows_dim {A} (P : A -> Prop) (chain : list (list A)) (b : nat) :
  Forall (Forall P) chain -> Forall P (concat (drop b <$> chain)).
Proof.
  induction 1 as [|h chain Hh _ IH]; simpl; [ constructor | ].
  apply Forall_app. split; [ apply Forall_drop, Hh | exact IH ].
Qed.

Lemma reshape_concat {A} (rows : list (list A)) (n : nat) :
  Forall (fun r => length r = n) rows ->
  reshape (replicate (length rows) n) (concat rows) = rows.
Proof.
  induction 1 as [|r rows Hr _ IH]; simpl; [ reflexivity | ].
  subst n. rewrite take_app_length, drop_app_length, IH. reflexivity.
Qed.

(** Cutting the row-major elements of rows of [ndim] coordinates back into
    rows of [ndim] gives the rows. *)
Lemma np_reshape_concat (rows : list (list float)) (ndim : nat) :
  (0 < ndim)%nat ->
  Forall (fun r => length r = ndim) rows ->
  np_reshape ndim (concat rows) = ret rows.
Proof.
  intros Hpos Hrows. unfold np_reshape.
  destruct ndim as [|d]; [ lia | ].
  rewrite (length_concat_rows rows (S d) Hrows).
  rewrite Nat.Div0.mod_mul, Nat.div_mul by lia. simpl Nat.eqb. cbv iota.
  rewrite (reshape_concat rows (S d) Hrows). reflexivity.
Qed.

(** What the burn-in leaves of a chain of the shape
    [(nwalkers, nsteps, ndim)]. *)
Lemma burnin_samples (chain : list (list (list float)))
    (nwalkers nsteps ndim b : nat) :
  (0 < ndim)%nat -> chain_shape nwalkers nsteps ndim chain ->
  np_reshape ndim (concat (concat (drop b <$> chain)))
  = ret (concat (drop b <$> chain)) /\
  length (concat (drop b <$> chain)) = (nwalkers * (nsteps - b))%nat /\
  Forall (fun row => length row = ndim) (concat (drop b <$> chain)).
Proof.
  intros Hpos (Hw & Hs & Hd).
  assert (Hrows : Forall (fun row => length row = ndim)
                    (concat (drop b <$> chain))).
  { apply drop_rows_dim, Hd. }
  split; [ apply np_reshape_concat; assumption | ].
  split; [ | exact Hrows ].
  rewrite (length_concat_rows _ (nsteps - b)).
  - rewrite length_fmap, Hw. reflexivity.
  - apply drop_rows_shape, Hs.
Qed.

Lemma fit_mcmc_dims (cl : cluster) (Nwalkers ndim : nat) :
  (incl_mstar cl = 1 /\ ndim = 3%nat) \/ (incl_mstar cl = 0 /\ ndim = 2%nat) ->
  (if incl_mstar cl =? 1 then ret (3%nat, Nwalkers)
   else if incl_mstar cl =? 0 then ret (2%nat, Nwalkers)
   else raise UnboundLocalError) = ret (ndim, Nwalkers) /\ (0 < ndim)%nat.
Proof. intros [[-> ->]|[-> ->]]; split; try reflexivity; lia. Qed.

(** With a starting point of [ndim] entries the walkers' positions are
    built, and [fit_mcmc] is the sampler run on them, followed by the cut of
    the burn-in. *)
Lemma fit_mcmc_start (E : Extern) (tspec_data : list tspec_row)
    (ne : nemodel) (cl : cluster) (ml_results : list float)
    (Nwalkers Nsteps Nburnin ndim : nat) :
  (incl_mstar cl = 1 /\ ndim = 3%nat) \/ (incl_mstar cl = 0 /\ ndim = 2%nat) ->
  length ml_results = ndim ->
  (forall i, length (randn E i ndim) = ndim) ->
  exists pos,
    initial_pos E ml_results ndim 0 Nwalkers = ret pos /\
    length pos = Nwalkers /\
    Forall (fun theta => length theta = ndim) pos /\
    fit_mcmc E tspec_data ne cl ml_results Nwalkers Nsteps Nburnin
    = (do chain <- emcee_chain E Nwalkers ndim
                     (lnprob_args E tspec_data ne cl) pos Nsteps ;;
       do samples <-
         np_reshape ndim (concat (concat (drop Nburnin <$> chain))) ;;
       ret (samples, chain)).
Proof.
  intros Hflag Hml Hrandn. unfold fit_mcmc.
  destruct (fit_mcmc_dims cl Nwalkers ndim Hflag) as [-> _].
  rewrite bind_ret.
  destruct (initial_pos_shape E ml_results ndim Hml Hrandn Nwalkers 0%nat)
    as (pos & Hpos & Hlen & Hdim).
  exists pos. rewrite Hpos, bind_ret. auto.
Qed.

(** What [fit_mcmc] returns when the sampler has returned a chain of the
    shape [(Nwalkers, Nsteps, ndim)], and what it raises when the sampler
    has raised. *)
Lemma fit_mcmc_after_sampler (E : Extern) (tspec_data : list tspec_row)
    (ne : nemodel) (cl : cluster) (ml_results : list float)
    (Nwalkers Nsteps Nburnin ndim : nat) (pos : list (list float)) :
  (0 < ndim)%nat ->
  fit_mcmc E tspec_data ne cl ml_results Nwalkers Nsteps Nburnin
  = (do chain <- emcee_chain E Nwalkers ndim
                   (lnprob_args E tspec_data ne cl) pos Nsteps ;;
     do samples <-
       np_reshape ndim (concat (concat (drop Nburnin <$> chain))) ;;
     ret (samples, chain)) ->
  (forall chain t,
     emcee_chain E Nwalkers ndim (lnprob_args E tspec_data ne cl) pos Nsteps
     = (Ok chain, t) ->
     chain_shape Nwalkers Nsteps ndim chain ->
     fit_mcmc E tspec_data ne cl ml_results Nwalkers Nsteps Nburnin
     = (Ok (concat (drop Nburnin <$> chain), chain), t)) /\
  (forall e t,
     emcee_chain E Nwalkers ndim (lnprob_args E tspec_data ne cl) pos Nsteps
     = (Raise e, t) ->
     fit_mcmc E tspec_data ne cl ml_results Nwalkers Nsteps Nburnin
     = (Raise e, t)).
Proof.
  intros Hpos ->. split.
  - intros chain t -> Hshape.
    destruct (burnin_samples chain Nwalkers Nsteps ndim Nburnin Hpos Hshape)
      as (Hre & _ & _).
    simpl. rewrite Hre. simpl. rewrite app_nil_r. reflexivity.
  - intros e t ->. reflexivity.
Qed.

(** C6: the sampler is emcee's; it can raise, and nothing in [fit_mcmc]
    catches that.  When the sampler's chain has the shape emcee gives it,
    [(Nwalkers, Nsteps, ndim)], then whenever [fit_mcmc] returns, for a
    burn-in of at most [Nsteps], the sample array has exactly
    [Nwalkers * (Nsteps - Nburnin)] rows: the chain of every walker without
    its first [Nburnin] steps.  Every row has [ndim] coordinates, 3 with the
    stellar mass and 2 without. *)
Theorem fit_mcmc_sample_count (E : Extern) (tspec_data : list tspec_row)
    (ne : nemodel) (cl : cluster) (ml_results : list float)
    (Nwalkers Nsteps Nburnin ndim : nat)
    (samples : list (list float)) (chain : list (list (list float)))
    (t : list event) :
  (incl_mstar cl = 1 /\ ndim = 3%nat) \/ (incl_mstar cl = 0 /\ ndim = 2%nat) ->
  (forall f pos c t',
     emcee_chain E Nwalkers ndim f pos Nsteps = (Ok c, t') ->
     chain_shape Nwalkers Nsteps ndim c) ->
  (Nburnin <= Nsteps)%nat ->
  fit_mcmc E tspec_data ne cl ml_results Nwalkers Nsteps Nburnin
  = (Ok (samples, chain), t) ->
  chain_shape Nwalkers Nsteps ndim chain /\
  samples = concat (drop Nburnin <$> chain) /\
  Z.of_nat (length samples)
  = Z.of_nat Nwalkers * (Z.of_nat Nsteps - Z.of_nat Nburnin) /\
  Forall (fun row => length row = ndim) samples.
Proof.
  intros Hflag Hsampler Hburn H. unfold fit_mcmc in H.
  destruct (fit_mcmc_dims cl Nwalkers ndim Hflag) as [Hdims Hpos].
  rewrite Hdims, bind_ret in H.
  apply bind_Ok in H as (pos & t1 & t2 & _ & H & ->).
  apply bind_Ok in H as (chain' & t3 & t4 & Hchain & H & ->).
  apply bind_Ok in H as (samples' & t5 & t6 & Hre & H & ->).
  injection H as <- <- _.
  apply Hsampler in Hchain.
  destruct (burnin_samples chain' Nwalkers Nsteps ndim Nburnin Hpos Hchain)
    as (Hre' & Hn & Hrows).
  rewrite Hre' in Hre. injection Hre as <- _.
  repeat split; try assumption; try apply Hchain.
  rewrite Hn, Nat2Z.inj_mul, Nat2Z.inj_sub by exact Hburn. reflexivity.
Qed.

(** The sampler of the small instance returns chains of emcee's shape. *)
Lemma stationary_sampler_shape (nwalkers ndim : nat)
    (f : list float -> M float) (pos : list (list float)) (iterations : nat)
    (chain : list (list (list float))) (t : list event) :
  Demo.stationary_sampler nwalkers ndim f pos iterations = (Ok chain, t) ->
  chain_shape nwalkers iterations ndim chain.
Proof.
  unfold Demo.stationary_sampler. intros H.
  destruct (Nat.odd nwalkers || (nwalkers <? 2 * ndim)%nat);
    [ discriminate | ].
  destruct ((length pos =? nwalkers)%nat
            && forallb (fun theta : list float =>
                          (length theta =? ndim)%nat) pos) eqn:Hshape;
    [ | discriminate ].
  apply andb_true_iff in Hshape as [Hlen Hdim].
  apply Nat.eqb_eq in Hlen.
  simpl in H. apply bind_Ok in H as (lp & t1 & t2 & _ & H & _).
  destruct (existsb is_nan lp); [ discriminate | ].
  injection H as <- _. unfold chain_shape.
  rewrite length_fmap. split; [ exact Hlen | ]. split.
  - apply Forall_fmap, Forall_forall. intros theta _. simpl.
    apply length_replicate.
  - apply Forall_fmap, Forall_forall. intros theta Hin. simpl.
    apply Forall_replicate.
    rewrite forallb_forall in Hdim. apply Nat.eqb_eq, Hdim.
    apply list_elem_of_In, Hin.
Qed.

Lemma fit_mcmc_sample_count_witness :
  exists samples chain t,
    fit_mcmc Demo.extern Demo.profile Demo.single_beta (Demo.meta 1 0)
      [5; 300]%float 4 5 2 = (Ok (samples, chain), t) /\
    chain_shape 4 5 2 chain /\
    samples = concat (drop 2 <$> chain) /\
    Z.of_nat (length samples) = 4 * (5 - 2) /\
    Forall (fun row => length row = 2%nat) samples.
Proof.
  eexists _, _, _. split; [ vm_compute; reflexivity | ].
  eapply (fit_mcmc_sample_count Demo.extern Demo.profile Demo.single_beta
            (Demo.meta 1 0) [5; 300]%float 4 5 2 2).
  - right. split; reflexivity.
  - intros f pos c t'. apply stationary_sampler_shape.
  - lia.
  - vm_compute. reflexivity.
Defined.

(** C8, as the code has it: [fit_mcmc] does not look at the burn-in before
    it cuts the chain.  With a burn-in of [Nsteps] or more and a starting
    point of [ndim] entries, whenever the sampler completes its run
    [fit_mcmc] returns normally, with an empty sample array and the full
    chain; it raises only what the sampler raises, and no
    ConfigurationError unless the sampler does. *)
Theorem fit_mcmc_full_burnin (E : Extern) (tspec_data : list tspec_row)
    (ne : nemodel) (cl : cluster) (ml_results : list float)
    (Nwalkers Nsteps Nburnin ndim : nat) :
  (incl_mstar cl = 1 /\ ndim = 3%nat) \/ (incl_mstar cl = 0 /\ ndim = 2%nat) ->
  length ml_results = ndim ->
  (forall i, length (randn E i ndim) = ndim) ->
  (forall f pos c t',
     emcee_chain E Nwalkers ndim f pos Nsteps = (Ok c, t') ->
     chain_shape Nwalkers Nsteps ndim c) ->
  (Nsteps <= Nburnin)%nat ->
  exists pos,
    initial_pos E ml_results ndim 0 Nwalkers = ret pos /\
    (forall chain t,
       emcee_chain E Nwalkers ndim (lnprob_args E tspec_data ne cl) pos Nsteps
       = (Ok chain, t) ->
       fit_mcmc E tspec_data ne cl ml_results Nwalkers Nsteps Nburnin
       = (Ok ([], chain), t)) /\
    (forall e t,
       emcee_chain E Nwalkers ndim (lnprob_args E tspec_data ne cl) pos Nsteps
       = (Raise e, t) ->
       fit_mcmc E tspec_data ne cl ml_results Nwalkers Nsteps Nburnin
       = (Raise e, t)) /\
    (avoids ConfigurationError
       (emcee_chain E Nwalkers ndim (lnprob_args E tspec_data ne cl) pos
          Nsteps) ->
     avoids ConfigurationError
       (fit_mcmc E tspec_data ne cl ml_results Nwalkers Nsteps Nburnin)).
Proof.
  intros Hflag Hml Hrandn Hsampler Hburn.
  destruct (fit_mcmc_start E tspec_data ne cl ml_results Nwalkers Nsteps
              Nburnin ndim Hflag Hml Hrandn)
    as (pos & Hpos & _ & _ & Hrun).
  destruct (fit_mcmc_dims cl Nwalkers ndim Hflag) as [_ Hnd].
  destruct (fit_mcmc_after_sampler E tspec_data ne cl ml_results Nwalkers
              Nsteps Nburnin ndim pos Hnd Hrun) as [Hok Hraise].
  assert (Hempty : forall chain t,
            emcee_chain E Nwalkers ndim (lnprob_args E tspec_data ne cl) pos
              Nsteps = (Ok chain, t) ->
            fit_mcmc E tspec_data ne cl ml_results Nwalkers Nsteps Nburnin
            = (Ok ([], chain), t)).
  { intros chain t Hchain.
    pose proof (Hsampler _ _ _ _ Hchain) as Hshape.
    rewrite (Hok chain t Hchain Hshape).
    destruct (burnin_samples chain Nwalkers Nsteps ndim Nburnin Hnd Hshape)
      as (_ & Hn & _).
    replace (Nsteps - Nburnin)%nat with 0%nat in Hn by lia.
    rewrite Nat.mul_0_r in Hn. apply length_zero_iff_nil in Hn.
    rewrite Hn. reflexivity. }
  exists pos. split; [ exact Hpos | ]. split; [ exact Hempty | ].
  split; [ exact Hraise | ].
  unfold avoids. intros Hs Hf.
  destruct (emcee_chain E Nwalkers ndim (lnprob_args E tspec_data ne cl) pos
              Nsteps) as [[chain| e |] t] eqn:Hchain.
  - rewrite (Hempty chain t eq_refl) in Hf. discriminate.
  - rewrite (Hraise e t eq_refl) in Hf. simpl in Hs, Hf. congruence.
  - rewrite Hrun in Hf. discriminate.
Qed.

Lemma fit_mcmc_full_burnin_witness :
  exists chain t,
    fit_mcmc Demo.extern Demo.profile Demo.single_beta (Demo.meta 1 1)
      [5; 300; 7]%float 6 4 4 = (Ok ([], chain), t) /\
    length chain = 6%nat.
Proof.
  destruct (fit_mcmc_full_burnin Demo.extern Demo.profile Demo.single_beta
              (Demo.meta 1 1) [5; 300; 7]%float 6 4 4 3)
    as (pos & Hpos & Hok & _).
  - left. split; reflexivity.
  - reflexivity.
  - intros i. reflexivity.
  - intros f p c t'. apply stationary_sampler_shape.
  - lia.
  - vm_compute in Hpos. injection Hpos as <-.
    eexists _, _. split.
    + apply Hok. vm_compute. reflexivity.
    + reflexivity.
Defined.

(** C8 as stated fails: with four walkers in two dimensions and
    [Nburnin = Nsteps = 3] the MCMC stage returns the empty sample array as
    an ordinary result, not a ConfigurationError, and the next stage accepts
    the empty array and returns as well. *)
Lemma fit_mcmc_empty_is_accepted :
  exists chain,
    result (fit_mcmc Demo.extern Demo.profile Demo.single_beta
              (Demo.meta 1 0) [5; 300]%float 4 3 3) = Ok ([], chain) /\
    length chain = 4%nat /\
    calc_posterior_mcmc Demo.extern 0 [] Demo.single_beta (Demo.meta 1 0)
    = (Ok [], []).
Proof. eexists. repeat split; vm_compute; reflexivity. Qed.

(** ** The radius search *)

Section Search.

Context (E : Extern) (c rs normsersic : float) (ne : nemodel) (cl : cluster).

Lemma read_var_Ok (v : option float) (x : float) (t : list event) :
  read_var v = (Ok x, t) -> v = Some x /\ t = [].
Proof. destruct v; simpl; intros [= <- <-]; auto. Qed.

Lemma float_of_int_trace (n : Z) : trace (float_of_int n) = [].
Proof. unfold float_of_int. case_match; reflexivity. Qed.

Lemma int_of_float_trace (x : float) : trace (int_of_float x) = [].
Proof. unfold int_of_float. case_match; reflexivity. Qed.

(** One pass evaluates the masses at the next integer radius: the radius
    grows by exactly 1, the quadrature is called once, from 0 to the new
    radius, on an integrand that does not depend on its argument. *)
Lemma search_step_Ok (st st1 : search_state) (t1 : list event) :
  search_step E c rs normsersic ne cl st = (Ok st1, t1) ->
  rdelta_tot st1 = rdelta_tot st + 1 /\
  t1 = [Call_quad (PyInt 0) (PyInt (rdelta_tot st + 1))] /\
  mass_gas st1
  = (integrate E (fun _ => mgas_intmodel E (PyInt (rdelta_tot st + 1)) ne)
       (PyInt 0) (PyInt (rdelta_tot st + 1)) * Msun E)%float /\
  (exists dev, mass_dev st1 = Some dev) /\
  mass_tot st1 = (mass_nfw st1 + default nan (mass_dev st1)
                  + mass_gas st1)%float.
Proof.
  unfold search_step. intros H.
  apply bind_Ok in H as (q & t & t' & Hq & H & ->).
  apply bind_Ok in H as (dev & t2 & t2' & Hdev & H & ->).
  apply bind_Ok in H as (r & t3 & t3' & Hr & H & ->).
  apply bind_Ok in H as (r3 & t4 & t4' & Hr3 & H & ->).
  injection H as <- <-.
  apply read_var_Ok in Hdev as [Hdev ->].
  pose proof (float_of_int_trace (rdelta_tot st + 1)) as G3.
  pose proof (py_pow_trace E r 3) as G4.
  rewrite Hr in G3. rewrite Hr3 in G4. simpl in G3, G4. subst t3 t4.
  pose proof (quad_Ok E _ _ _ _ _ Hq) as ->.
  unfold quad, tick, bind, ret in Hq. simpl in Hq. injection Hq as <-.
  simpl. rewrite Hdev. simpl. repeat split. eauto.
Qed.

Lemma passes_radius (k : nat) (st st' : search_state) (t : list event) :
  passes E c rs normsersic ne cl k st st' t ->
  rdelta_tot st' = rdelta_tot st + Z.of_nat k /\
  t = (fun j => Call_quad (PyInt 0) (PyInt (rdelta_tot st + Z.of_nat j)))
        <$> seq 1 k /\
  ((exists dev, mass_dev st = Some dev) ->
   exists dev, mass_dev st' = Some dev).
Proof.
  induction 1 as [st|k st st1 st' t1 t Hgt Hstep _ (IH1 & IH2 & IH3)].
  - simpl. repeat split; [ lia | auto ].
  - apply search_step_Ok in Hstep as (Hr & -> & _ & Hdev & _).
    split; [ lia | ]. split; [ | auto ].
    simpl. f_equal. rewrite IH2, <- (fmap_S_seq 1 k), <- list_fmap_compose.
    apply list_fmap_ext. intros _ j _. simpl. do 2 f_equal. lia.
Qed.

(** With enough fuel the loop follows the passes and returns at the first
    state whose ratio does not exceed the target. *)
Lemma search_passes (k : nat) (st st' : search_state) (t : list event) :
  passes E c rs normsersic ne cl k st st' t ->
  (overdensity E <? ratio st')%float = false ->
  forall fuel, (k <= fuel)%nat ->
    search E fuel c rs normsersic ne cl st = (Ok st', t).
Proof.
  induction 1 as [st|k st st1 st' t1 t Hgt Hstep _ IH]; intros Hle fuel Hk.
  - destruct fuel; simpl; rewrite Hle; reflexivity.
  - destruct fuel as [|fuel]; [ lia | ]. simpl. rewrite Hgt, Hstep.
    unfold bind. rewrite (IH Hle fuel) by lia. reflexivity.
Qed.

(** While the ratio stays above the target the loop goes on: after [k] such
    passes a model that follows at most [k] passes is still running. *)
Lemma search_still_running (k : nat) (st st' : search_state)
    (t : list event) :
  passes E c rs normsersic ne cl k st st' t ->
  (overdensity E <? ratio st')%float = true ->
  forall fuel, (fuel <= k)%nat ->
    result (search E fuel c rs normsersic ne cl st) = OutOfFuel.
Proof.
  induction 1 as [st|k st st1 st' t1 t Hgt Hstep _ IH]; intros Hgt' fuel Hk.
  - destruct fuel; [ | lia ]. simpl. rewrite Hgt'. reflexivity.
  - destruct fuel as [|fuel]; simpl; rewrite Hgt; [ reflexivity | ].
    rewrite (result_bind_Ok _ _ st1) by (rewrite Hstep; reflexivity).
    apply IH; [ exact Hgt' | lia ].
Qed.

(** The loop returns only at a state whose ratio does not exceed the target,
    reached by passes that all found the ratio above it. *)
Lemma search_Ok_inv (fuel : nat) :
  forall (st st' : search_state) (t : list event),
    search E fuel c rs normsersic ne cl st = (Ok st', t) ->
    (overdensity E <? ratio st')%float = false /\
    exists k, (k <= fuel)%nat /\ passes E c rs normsersic ne cl k st st' t.
Proof.
  induction fuel as [|fuel IH]; intros st st' t H; simpl in H.
  - destruct (overdensity E <? ratio st)%float eqn:Hgt; [ discriminate | ].
    injection H as <- <-. split; [ exact Hgt | ].
    exists 0%nat. split; [ lia | constructor ].
  - destruct (overdensity E <? ratio st)%float eqn:Hgt.
    + apply bind_Ok in H as (st1 & t1 & t2 & Hstep & H & ->).
      apply IH in H as (Hle & k & Hk & Hp).
      split; [ exact Hle | ]. exists (S k). split; [ lia | ].
      econstructor; eassumption.
    + injection H as <- <-. split; [ exact Hgt | ].
      exists 0%nat. split; [ lia | constructor ].
Qed.

End Search.

(** The statements before the loop: the seed radius is [c*rs] with
    [c = row[0]] and [rs = row[1]], the quadrature is called once, from 0 to
    the seed, and the search starts from the integer part of the seed. *)
Lemma search_init_Ok (E : Extern) (row : list float) (ne : nemodel)
    (cl : cluster) (c rs normsersic : float) (st0 : search_state)
    (t0 : list event) :
  search_init E row ne cl = (Ok (c, rs, normsersic, st0), t0) ->
  row !! 0%nat = Some c /\ row !! 1%nat = Some rs /\
  int_of_float (c * rs) = ret (rdelta_tot st0) /\
  t0 = [Call_quad (PyInt 0) (PyFloat (c * rs))] /\
  mass_gas st0
  = (integrate E (fun _ => mgas_intmodel E (PyFloat (c * rs)) ne)
       (PyInt 0) (PyFloat (c * rs)) * Msun E)%float /\
  (exists dev, mass_dev st0 = Some dev).
Proof.
  unfold search_init. intros H.
  apply bind_Ok in H as (c' & t1 & t1' & Hc & H & ->).
  apply bind_Ok in H as (rs' & t2 & t2' & Hrs & H & ->).
  apply bind_Ok in H as (n' & t3 & t3' & Hn & H & ->).
  apply bind_Ok in H as (q & t4 & t4' & Hq & H & ->).
  apply bind_Ok in H as (dev & t5 & t5' & Hdev & H & ->).
  apply bind_Ok in H as (r0 & t6 & t6' & Hr0 & H & ->).
  injection H as <- <- <- <- <-.
  apply read_var_Ok in Hdev as [Hdev ->].
  pose proof (getitem_trace row 0) as G1. rewrite Hc in G1.
  pose proof (getitem_trace row 1) as G2. rewrite Hrs in G2.
  pose proof (int_of_float_trace (c' * rs')) as G6. rewrite Hr0 in G6.
  simpl in G1, G2, G6. subst t1 t2 t6.
  assert (t3 = []) as ->.
  { destruct (count_mstar cl =? 1).
    - pose proof (getitem_trace row 2) as G3. rewrite Hn in G3. exact G3.
    - injection Hn as _ <-. reflexivity. }
  pose proof (quad_Ok E _ _ _ _ _ Hq) as ->.
  unfold quad, tick, bind, ret in Hq. simpl in Hq. injection Hq as <-.
  simpl. rewrite Hdev.
  assert (Hget : forall (i : nat) (x : float),
            getitem row (Z.of_nat i) = (Ok x, []) -> row !! i = Some x).
  { intros i x. unfold getitem.
    destruct (Z.of_nat i <? 0) eqn:Hneg; [ apply Z.ltb_lt in Hneg; lia | ].
    rewrite Nat2Z.id. repeat case_match; simpl; intros [= <-]; reflexivity. }
  split; [ apply (Hget 0%nat), Hc | ].
  split; [ apply (Hget 1%nat), Hrs | ].
  split; [ exact Hr0 | ].
  repeat split. eauto.
Qed.

Lemma bind_Ok_eq {A B} (m : M A) (k : A -> M B) (a : A) (t t' : list event)
    (r : outcome B) :
  m = (Ok a, t) -> k a = (r, t') -> bind m k = (r, t ++ t').
Proof. intros -> Hk. simpl. rewrite Hk. reflexivity. Qed.

(** C3, as the code has it: the masses and the ratio are first evaluated at
    the seed [c*rs]; the search then starts from the integer part
    [n0 = int(c*rs)], and every pass of the loop, entered while the ratio
    exceeds the target, evaluates the masses and the ratio at the next
    integer: the trial radii are [n0+1], [n0+2], ...  When after [k] passes
    the ratio is for the first time not above the target, [calc_rdelta_p]
    returns [n0 + k] with the masses of that last evaluation; for [k = 0]
    this is [int(c*rs)] with the masses at [c*rs]. *)
Theorem calc_rdelta_p_search (E : Extern) (fuel k : nat) (row : list float)
    (ne : nemodel) (cl : cluster) (c rs normsersic : float)
    (st0 st : search_state) (t0 t : list event) :
  search_init E row ne cl = (Ok (c, rs, normsersic, st0), t0) ->
  passes E c rs normsersic ne cl k st0 st t ->
  (overdensity E <? ratio st)%float = false ->
  (k <= fuel)%nat ->
  row !! 0%nat = Some c /\ row !! 1%nat = Some rs /\
  int_of_float (c * rs) = ret (rdelta_tot st0) /\
  t0 = [Call_quad (PyInt 0) (PyFloat (c * rs))] /\
  t = (fun j => Call_quad (PyInt 0) (PyInt (rdelta_tot st0 + Z.of_nat j)))
        <$> seq 1 k /\
  exists dev,
    mass_dev st = Some dev /\
    calc_rdelta_p E fuel row ne cl
    = (Ok (rdelta_tot st0 + Z.of_nat k, (mass_tot st / Msun E)%float,
           (mass_nfw st / Msun E)%float, (dev / Msun E)%float,
           (mass_gas st / Msun E)%float),
       t0 ++ t).
Proof.
  intros Hinit Hpass Hle Hfuel.
  destruct (search_init_Ok E row ne cl c rs normsersic st0 t0 Hinit)
    as (Hc & Hrs & Hint & Ht0 & _ & Hdev0).
  destruct (passes_radius E c rs normsersic ne cl k st0 st t Hpass)
    as (Hrad & Ht & Hdev).
  destruct (Hdev Hdev0) as [dev Hst].
  repeat (split; [ assumption | ]).
  exists dev. split; [ exact Hst | ].
  unfold calc_rdelta_p. eapply bind_Ok_eq; [ exact Hinit | ].
  cbv beta iota. rewrite <- (app_nil_r t).
  eapply bind_Ok_eq; [ apply (search_passes E c rs normsersic ne cl k);
                       eassumption | ].
  rewrite Hst. simpl. rewrite Hrad. reflexivity.
Qed.

Lemma calc_rdelta_p_search_witness :
  calc_rdelta_p Demo.extern 10 [2.5; 1.1]%float Demo.single_beta
    (Demo.meta 0 0)
  = (Ok (5, 200025%float, 200000%float, 0%float, 25%float),
     [Call_quad (PyInt 0) (PyFloat 2.75); Call_quad (PyInt 0) (PyInt 3);
      Call_quad (PyInt 0) (PyInt 4); Call_quad (PyInt 0) (PyInt 5)]).
Proof.
  edestruct (calc_rdelta_p_search Demo.extern 10 3 [2.5; 1.1]%float
               Demo.single_beta (Demo.meta 0 0))
    as (_ & _ & _ & _ & _ & dev & Hdev & Hrun).
  - vm_compute. reflexivity.
  - eapply passes_S; [ reflexivity | vm_compute; reflexivity | ].
    eapply passes_S; [ reflexivity | vm_compute; reflexivity | ].
    eapply passes_S; [ reflexivity | vm_compute; reflexivity | ].
    apply passes_O.
  - reflexivity.
  - lia.
  - rewrite Hrun. vm_compute in Hdev. injection Hdev as <-.
    vm_compute. reflexivity.
Defined.

(** C3 as stated fails.  For [c = 0.5], [rs = 5.5] the seed is 2.75 and its
    ratio is already below the target: the only radius evaluated is 2.75,
    and the radius returned is 2.  For [c = 2.5], [rs = 1.1] the radii
    evaluated are 2.75, 3, 4, 5: the first step from the seed is 0.25. *)
Lemma calc_rdelta_p_truncates_seed :
  calc_rdelta_p Demo.extern 10 [0.5; 5.5]%float Demo.single_beta
    (Demo.meta 0 0)
  = (Ok (2, 22007.5625%float, 22000%float, 0%float, 7.5625%float),
     [Call_quad (PyInt 0) (PyFloat 2.75)]) /\
  calc_rdelta_p Demo.extern 10 [2.5; 1.1]%float Demo.single_beta
    (Demo.meta 0 0)
  = (Ok (5, 200025%float, 200000%float, 0%float, 25%float),
     [Call_quad (PyInt 0) (PyFloat 2.75); Call_quad (PyInt 0) (PyInt 3);
      Call_quad (PyInt 0) (PyInt 4); Call_quad (PyInt 0) (PyInt 5)]).
Proof. split; vm_compute; reflexivity. Qed.

(** The gas term, at the seed and in every pass, is the quadrature of an
    integrand that ignores the integration variable: the constant
    [mgas_intmodel(r, nemodel)] at the trial radius [r] itself. *)
Lemma gas_mass_integrand (E : Extern) (row : list float) (ne : nemodel)
    (cl : cluster) (c rs normsersic : float) (st0 st st1 : search_state)
    (t0 t1 : list event) :
  (search_init E row ne cl = (Ok (c, rs, normsersic, st0), t0) ->
   mass_gas st0
   = (integrate E (fun _ => mgas_intmodel E (PyFloat (c * rs)) ne)
        (PyInt 0) (PyFloat (c * rs)) * Msun E)%float) /\
  (search_step E c rs normsersic ne cl st = (Ok st1, t1) ->
   mass_gas st1
   = (integrate E (fun _ => mgas_intmodel E (PyInt (rdelta_tot st + 1)) ne)
        (PyInt 0) (PyInt (rdelta_tot st + 1)) * Msun E)%float).
Proof.
  split; intros H.
  - apply search_init_Ok in H. tauto.
  - apply search_step_Ok in H. tauto.
Qed.

(** C4 fails on the code.  With the gas integrand [mgas_intmodel(x) = x] and
    a quadrature that is exact on it, the gas mass within the radius 5 that
    [calc_rdelta_p] reports is 25, the integral of the constant
    [mgas_intmodel(5)] over (0, 5), where the integral of [mgas_intmodel(x)]
    over [x] in (0, 5) is 12.5. *)
Theorem calc_rdelta_p_gas_mass :
  calc_rdelta_p Demo.extern 10 [2.5; 1.1]%float Demo.single_beta
    (Demo.meta 0 0)
  = (Ok (5, 200025%float, 200000%float, 0%float, 25%float),
     [Call_quad (PyInt 0) (PyFloat 2.75); Call_quad (PyInt 0) (PyInt 3);
      Call_quad (PyInt 0) (PyInt 4); Call_quad (PyInt 0) (PyInt 5)]) /\
  (integrate Demo.extern
     (fun x => mgas_intmodel Demo.extern (PyFloat x) Demo.single_beta)
     (PyInt 0) (PyInt 5) * Msun Demo.extern = 12.5)%float /\
  (integrate Demo.extern
     (fun _ => mgas_intmodel Demo.extern (PyInt 5) Demo.single_beta)
     (PyInt 0) (PyInt 5) * Msun Demo.extern = 25)%float.
Proof. repeat split; vm_compute; reflexivity. Qed.

Lemma SFcompare_antisym (x y : spec_float) :
  SFcompare y x = CompOpp <$> SFcompare x y.
Proof.
  destruct x as [sx|sx| |sx mx ex], y as [sy|sy| |sy my ey]; simpl;
    try reflexivity;
    try (destruct sx; reflexivity); try (destruct sy; reflexivity);
    try (destruct sx, sy; reflexivity).
  assert (Hm : Pos.compare_cont Eq my mx
               = CompOpp (Pos.compare_cont Eq mx my))
    by (rewrite Pos.compare_cont_antisym; reflexivity).
  destruct sx, sy; simpl; try reflexivity; f_equal;
    rewrite (Z.compare_antisym ex ey);
    destruct (ex ?= ey)%Z; simpl; try reflexivity;
    rewrite Hm; destruct (Pos.compare_cont Eq mx my); reflexivity.
Qed.

Lemma Prim2SF_not_nan (x : float) :
  is_nan x = false -> Prim2SF x <> S754_nan.
Proof.
  intros H. unfold Prim2SF. rewrite H.
  repeat case_match; discriminate.
Qed.

(** For two doubles that are not NaN, [x] not below [y] puts [y] at or
    below [x]. *)
Lemma ltb_false_leb (x y : float) :
  is_nan x = false -> is_nan y = false ->
  (x <? y)%float = false -> (y <=? x)%float = true.
Proof.
  intros Hx Hy. rewrite ltb_spec, leb_spec. unfold SFltb, SFleb.
  rewrite (SFcompare_antisym (Prim2SF x) (Prim2SF y)).
  apply Prim2SF_not_nan in Hx, Hy.
  destruct (Prim2SF x) as [| | |] eqn:Ex, (Prim2SF y) as [| | |] eqn:Ey;
    try congruence;
    destruct (SFcompare _ _) as [[| |]|] eqn:Hc; simpl; try congruence;
    simpl in Hc; repeat case_match; congruence.
Qed.

(** C7, as the code has it: the search has no bound on its passes and never
    raises a DivergentSearchError.  As long as the ratio exceeds the target it
    goes on, whatever the number of passes made; it returns only at a trial
    radius whose ratio is not above the target: at or below it, or not
    comparable with it, one of the two being a NaN. *)
Theorem calc_rdelta_p_unguarded (E : Extern) (fuel : nat) (row : list float)
    (ne : nemodel) (cl : cluster) (c rs normsersic : float)
    (st0 : search_state) (t0 : list event) :
  search_init E row ne cl = (Ok (c, rs, normsersic, st0), t0) ->
  result (calc_rdelta_p E fuel row ne cl) <> Raise DivergentSearchError /\
  (forall k st t,
     passes E c rs normsersic ne cl k st0 st t ->
     (overdensity E <? ratio st)%float = true ->
     (fuel <= k)%nat ->
     result (calc_rdelta_p E fuel row ne cl) = OutOfFuel) /\
  (forall rdelta mdelta mdm mstars mgas t,
     calc_rdelta_p E fuel row ne cl
     = (Ok (rdelta, mdelta, mdm, mstars, mgas), t) ->
     exists k st ts,
       passes E c rs normsersic ne cl k st0 st ts /\
       (overdensity E <? ratio st)%float = false /\
       ((ratio st <=? overdensity E)%float = true \/
        is_nan (ratio st) = true \/ is_nan (overdensity E) = true) /\
       rdelta = rdelta_tot st0 + Z.of_nat k).
Proof.
  intros Hinit. split; [ apply clean_calc_rdelta_p | ]. split.
  - intros k st t Hpass Hgt Hfuel. unfold calc_rdelta_p.
    rewrite (result_bind_Ok _ _ (c, rs, normsersic, st0))
      by (rewrite Hinit; reflexivity).
    cbv beta iota.
    pose proof (search_still_running E c rs normsersic ne cl k st0 st t
                  Hpass Hgt fuel Hfuel) as Hrun.
    destruct (search E fuel c rs normsersic ne cl st0) as [r tr].
    simpl in Hrun. subst r. reflexivity.
  - intros rdelta mdelta mdm mstars mgas t H. unfold calc_rdelta_p in H.
    apply bind_Ok in H as (init & t1 & t2 & Hinit' & H & ->).
    rewrite Hinit in Hinit'. injection Hinit' as <- <-.
    cbv beta iota in H.
    apply bind_Ok in H as (st & t3 & t4 & Hsearch & H & ->).
    apply bind_Ok in H as (dev & t5 & t6 & _ & H & ->).
    injection H as <- _ _ _ _ _.
    apply search_Ok_inv in Hsearch as (Hle & k & _ & Hpass).
    exists k, st, t3. split; [ exact Hpass | ]. split; [ exact Hle | ].
    split; [ | apply (passes_radius E c rs normsersic ne cl k st0 st t3
                        Hpass) ].
    destruct (is_nan (ratio st)) eqn:Hr; [ auto | ].
    destruct (is_nan (overdensity E)) eqn:Ho; [ auto | ].
    left. apply ltb_false_leb; assumption.
Qed.

Lemma calc_rdelta_p_unguarded_witness :
  result (calc_rdelta_p Demo.extern 3 [5; 300; 1e308]%float Demo.single_beta
            (Demo.meta 0 1)) <> Raise DivergentSearchError /\
  result (calc_rdelta_p Demo.extern 3 [5; 300; 1e308]%float Demo.single_beta
            (Demo.meta 0 1)) = OutOfFuel.
Proof.
  edestruct (calc_rdelta_p_unguarded Demo.extern 3 [5; 300; 1e308]%float
               Demo.single_beta (Demo.meta 0 1)) as (Hclean & Hrun & _).
  - vm_compute. reflexivity.
  - split; [ exact Hclean | ]. eapply (Hrun 3%nat).
    + eapply passes_S; [ reflexivity | vm_compute; reflexivity | ].
      eapply passes_S; [ reflexivity | vm_compute; reflexivity | ].
      eapply passes_S; [ reflexivity | vm_compute; reflexivity | ].
      apply passes_O.
    + reflexivity.
    + lia.
Defined.

(** A ratio that is a NaN ends the search at once: with a NaN for the
    stellar normalisation the enclosed mass is a NaN, the test of the loop
    fails, and the seed radius is returned, after the one evaluation. *)
Lemma calc_rdelta_p_nan_ratio :
  exists mdelta mstars,
    calc_rdelta_p Demo.extern 10 [5; 300; nan]%float Demo.single_beta
      (Demo.meta 0 1)
    = (Ok (1500, mdelta, 120000000%float, mstars, 2250000%float),
       [Call_quad (PyInt 0) (PyFloat 1500)]) /\
    is_nan mdelta = true /\ is_nan mstars = true.
Proof.
  eexists _, _. split; [ vm_compute; reflexivity | ].
  split; vm_compute; reflexivity.
Qed.

(** C7 as stated fails: for a sample whose stellar normalisation overflows,
    the enclosed mass is infinite at every radius; after 1000 passes (1001
    evaluations, the last at radius 2500) the search has neither returned nor
    raised an error. *)
Lemma calc_rdelta_p_runs_on :
  result (calc_rdelta_p Demo.extern 1000 [5; 300; 1e308]%float
            Demo.single_beta (Demo.meta 0 1)) = OutOfFuel /\
  length (trace (calc_rdelta_p Demo.extern 1000 [5; 300; 1e308]%float
                   Demo.single_beta (Demo.meta 0 1))) = 1001%nat /\
  last (trace (calc_rdelta_p Demo.extern 1000 [5; 300; 1e308]%float
                 Demo.single_beta (Demo.meta 0 1)))
  = Some (Call_quad (PyInt 0) (PyInt 2500)).
Proof. repeat split; vm_compute; reflexivity. Qed.

(** ** The summary of the posterior *)

Lemma estimate_percentiles (a : list (list float)) (r : list float)
    (rest : list (list float)) :
  a = r :: rest ->
  estimate <$> percentiles a
  = (fun j => summary (column j a)) <$> seq 0 (length r).
Proof.
  intros ->. unfold percentiles, columns.
  rewrite <- !list_fmap_compose. apply list_fmap_ext. intros _ j _.
  reflexivity.
Qed.

Lemma estimates_cons (a : list (list float)) (r : list float)
    (rest : list (list float)) :
  a = r :: rest -> estimates a = ret (estimate <$> percentiles a).
Proof. intros ->. reflexivity. Qed.

Lemma estimates_rows (a : list (list float)) (r : list float)
    (rest : list (list float)) :
  a = r :: rest ->
  estimates a = ret ((fun j => summary (column j a)) <$> seq 0 (length r)).
Proof.
  intros Ha. rewrite <- (estimate_percentiles a r rest Ha).
  apply (estimates_cons a r rest Ha).
Qed.

Lemma first_row {A} (a : list (list A)) (n : nat) :
  a <> [] -> Forall (fun r => length r = n) a ->
  exists r rest, a = r :: rest /\ length r = n.
Proof.
  intros Hne Hall. destruct a as [|r rest]; [ congruence | ].
  apply Forall_cons in Hall as [Hr _]. eauto.
Qed.

(** *** The percentiles are interpolated between order statistics *)

(** Two doubles that are not NaN are comparable. *)
Lemma leb_total (x y : float) :
  is_nan x = false -> is_nan y = false ->
  (x <=? y)%float = false -> (y <=? x)%float = true.
Proof.
  intros Hx Hy. rewrite !leb_spec. unfold SFleb.
  rewrite (SFcompare_antisym (Prim2SF x) (Prim2SF y)).
  apply Prim2SF_not_nan in Hx, Hy.
  destruct (Prim2SF x) as [| | |] eqn:Ex, (Prim2SF y) as [| | |] eqn:Ey;
    try congruence;
    destruct (SFcompare _ _) as [[| |]|] eqn:Hc; simpl; try congruence;
    simpl in Hc; repeat case_match; congruence.
Qed.

Lemma insert_sorted_perm (x : float) (l : list float) :
  insert_sorted x l ≡ₚ x :: l.
Proof.
  induction l as [|y l IH]; simpl; [ reflexivity | ].
  destruct (x <=? y)%float; [ reflexivity | ].
  rewrite IH. apply Permutation_swap.
Qed.

Lemma insert_sorted_sorted (x : float) (l : list float) :
  is_nan x = false -> Forall (fun y => is_nan y = false) l ->
  Sorted (fun a b => (a <=? b)%float = true) l ->
  Sorted (fun a b => (a <=? b)%float = true) (insert_sorted x l).
Proof.
  intros Hx Hl Hs. induction l as [|y l IH]; simpl.
  - repeat constructor.
  - apply Forall_cons in Hl as [Hy Hl].
    apply Sorted_inv in Hs as [Hs Hhd].
    destruct (x <=? y)%float eqn:Hxy.
    + constructor; [ constructor; assumption | constructor; exact Hxy ].
    + constructor; [ apply IH; assumption | ].
      destruct l as [|z l]; simpl.
      * constructor. apply leb_total; assumption.
      * destruct (x <=? z)%float.
        -- constructor. apply leb_total; assumption.
        -- constructor. apply HdRel_inv in Hhd. exact Hhd.
Qed.

(** The sorted copy of a column without NaN holds the same values, in
    non-decreasing order: its elements are the order statistics. *)
Lemma np_sort_order_statistics (col : list float) :
  Forall (fun y => is_nan y = false) col ->
  np_sort col ≡ₚ col /\
  Sorted (fun a b => (a <=? b)%float = true) (np_sort col).
Proof.
  induction 1 as [|x l Hx Hl [IHp IHs]]; simpl.
  - split; [ reflexivity | constructor ].
  - split.
    + rewrite insert_sorted_perm, IHp. reflexivity.
    + apply insert_sorted_sorted; [ exact Hx | | exact IHs ].
      rewrite IHp. exact Hl.
Qed.

Lemma existsb_is_nan (col : list float) :
  Forall (fun x => is_nan x = false) col -> existsb is_nan col = false.
Proof.
  induction 1 as [|x l Hx _ IH]; simpl; [ reflexivity | ].
  rewrite Hx, IH. reflexivity.
Qed.

(** The integer part that the model takes of a rank is its integer part in
    exact arithmetic. *)
Lemma integer_part_floor (x : float) (k : nat) :
  integer_part x k -> floor_nat x = k.
Proof.
  unfold integer_part, floor_nat.
  destruct (Prim2SF x) as [b|b| |[|] m e]; try contradiction.
  - intros ->. reflexivity.
  - unfold trunc. destruct (0 <=? e) eqn:He.
    + apply Z.leb_le in He. intros Hk.
      rewrite Z.shiftl_mul_pow2 by exact He. rewrite <- Hk.
      apply Nat2Z.id.
    + apply Z.leb_gt in He. intros [Hlo Hhi].
      rewrite Z.shiftr_div_pow2 by lia.
      assert (Hp : 0 < 2 ^ (- e)) by (apply Z.pow_pos_nonneg; lia).
      set (p := 2 ^ (- e)) in *.
      assert (Hdiv : Z.pos m / p = Z.of_nat k).
      { symmetry. apply (Z.div_unique _ _ _ (Z.pos m - p * Z.of_nat k)); lia. }
      rewrite Hdiv. apply Nat2Z.id.
Qed.

Lemma floor_integer_part (x : float) :
  match Prim2SF x with
  | S754_zero _ | S754_finite false _ _ => True
  | _ => False
  end ->
  integer_part x (floor_nat x).
Proof.
  unfold integer_part, floor_nat.
  destruct (Prim2SF x) as [b|b| |[|] m e]; try contradiction; intros _.
  - reflexivity.
  - unfold trunc. destruct (0 <=? e) eqn:He.
    + apply Z.leb_le in He. rewrite Z.shiftl_mul_pow2 by exact He.
      apply Z2Nat.id. apply Z.mul_nonneg_nonneg; [ lia | ].
      apply Z.pow_nonneg. lia.
    + apply Z.leb_gt in He. rewrite Z.shiftr_div_pow2 by lia.
      assert (Hp : 0 < 2 ^ (- e)) by (apply Z.pow_pos_nonneg; lia).
      set (p := 2 ^ (- e)) in *.
      rewrite Z2Nat.id by (apply Z.div_pos; lia).
      pose proof (Z.mul_div_le (Z.pos m) p Hp).
      pose proof (Z.mul_succ_div_gt (Z.pos m) p Hp). lia.
Qed.

(** For columns of up to 4096 values the ranks of the three percentiles lie
    within the column. *)
Lemma percentile_ranks_within (N : nat) (q : float) :
  (1 <= N <= 4096)%nat -> q = 16%float \/ q = 50%float \/ q = 84%float ->
  exists k, integer_part (rank N q) k /\ (k < N)%nat.
Proof.
  intros HN Hq.
  assert (Hall : forallb (fun n => rank_within n 16 && rank_within n 50
                                   && rank_within n 84) (seq 1 4096) = true)
    by (vm_compute; reflexivity).
  rewrite forallb_forall in Hall.
  specialize (Hall N). rewrite in_seq in Hall.
  destruct (andb_prop _ _ (Hall ltac:(lia))) as [H H84].
  apply andb_prop in H as [H16 H50].
  assert (Hw : rank_within N q = true)
    by (destruct Hq as [->|[->| ->]]; assumption).
  exists (floor_nat (rank N q)). unfold rank_within in Hw. split.
  - apply floor_integer_part.
    destruct (Prim2SF (rank N q)) as [b|b| |[|] m e]; try discriminate;
      exact I.
  - pose proof (floor_integer_part (rank N q)) as Hf.
    unfold floor_nat in *.
    destruct (Prim2SF (rank N q)) as [b|b| |[|] m e]; try discriminate;
      [ apply Nat.ltb_lt, Hw | apply Nat.ltb_lt, Hw ].
Qed.

(** [np.percentile] interpolates linearly between order statistics. *)
Lemma np_percentile_interpolates (col : list float) (q : float) :
  interpolates col q (np_percentile col q).
Proof.
  intros k Hnan Hint Hk.
  destruct (np_sort_order_statistics col Hnan) as [Hperm Hsorted].
  pose proof (Permutation_length Hperm) as Hlen.
  destruct (lookup_lt_is_Some_2 (np_sort col) k) as [lo Hlo]; [ lia | ].
  destruct (lookup_lt_is_Some_2 (np_sort col)
              (Nat.min (k + 1) (length col - 1))) as [hi Hhi]; [ lia | ].
  exists (np_sort col), lo, hi.
  split; [ exact Hperm | ]. split; [ exact Hsorted | ].
  split; [ exact Hlo | ]. split; [ exact Hhi | ].
  destruct col as [|x col']; [ simpl in Hk; lia | ].
  unfold np_percentile. rewrite (existsb_is_nan _ Hnan).
  change (q / 100 * round_int (Z.of_nat (length (x :: col') - 1)))%float
    with (rank (length (x :: col')) q).
  rewrite (integer_part_floor _ _ Hint), Hlo, Hhi. reflexivity.
Qed.

Lemma summary_reports (m : gmap string (float * float * float))
    (key : string) (col : list float) :
  m !! key = Some (summary col) -> reports m key col.
Proof.
  intros H. exists (np_percentile col 16), (np_percentile col 50),
    (np_percentile col 84).
  split; [ exact H | ]. repeat split; apply np_percentile_interpolates.
Qed.

(** C9: for non-empty sample arrays of the shapes the stages produce,
    [samples_results] returns a dictionary that gives, for every quantity,
    the triple (median, 84th percentile - median, median - 16th percentile)
    of that quantity's column over all samples, the three percentiles
    interpolated linearly between order statistics; [c], [rs], [rdelta],
    [mdelta], [mdm] and [mgas] are always among its keys, [normsersic] and
    [mstars] exactly when the stellar mass is counted. *)
Theorem samples_results_summary (samples samples_aux : list (list float))
    (cl : cluster) (ndim : nat) :
  (count_mstar cl = 1 /\ ndim = 3%nat) \/
  (count_mstar cl = 0 /\ ndim = 2%nat) ->
  samples <> [] -> Forall (fun r => length r = ndim) samples ->
  samples_aux <> [] -> Forall (fun r => length r = 5%nat) samples_aux ->
  exists mcmc_results : gmap string (float * float * float),
    samples_results samples samples_aux cl = ret mcmc_results /\
    reports mcmc_results "c" (column 0 samples) /\
    reports mcmc_results "rs" (column 1 samples) /\
    reports mcmc_results "rdelta" (column 0 samples_aux) /\
    reports mcmc_results "mdelta" (column 1 samples_aux) /\
    reports mcmc_results "mdm" (column 2 samples_aux) /\
    reports mcmc_results "mgas" (column 4 samples_aux) /\
    (count_mstar cl = 1 ->
     reports mcmc_results "normsersic" (column 2 samples) /\
     reports mcmc_results "mstars" (column 3 samples_aux) /\
     dom mcmc_results
     = {[ "c"; "rs"; "rdelta"; "mdelta"; "mdm"; "mgas";
          "normsersic"; "mstars" ]}) /\
    (count_mstar cl = 0 ->
     dom mcmc_results
     = {[ "c"; "rs"; "rdelta"; "mdelta"; "mdm"; "mgas" ]}).
Proof.
  intros Hflag Hne Hall Hne' Hall'.
  destruct (first_row samples ndim Hne Hall) as (r & rest & Hs & Hr).
  destruct (first_row samples_aux 5 Hne' Hall') as (r' & rest' & Hs' & Hr').
  unfold samples_results.
  rewrite (estimates_rows samples r rest Hs), Hr.
  rewrite (estimates_rows samples_aux r' rest' Hs'), Hr'.
  destruct Hflag as [[Hc ->]|[Hc ->]]; rewrite Hc; cbn [Z.eqb Pos.eqb].
  - cbn [fmap list_fmap seq]. rewrite !bind_ret. eexists.
    split; [ reflexivity | ].
    repeat (split; [ apply summary_reports; simplify_map_eq; reflexivity | ]).
    split.
    + intros _.
      split; [ apply summary_reports; simplify_map_eq; reflexivity | ].
      split; [ apply summary_reports; simplify_map_eq; reflexivity | ].
      rewrite !dom_insert_L, dom_empty_L. set_solver.
    + intros Habs. discriminate.
  - cbn [fmap list_fmap seq]. rewrite !bind_ret. eexists.
    split; [ reflexivity | ].
    repeat (split; [ apply summary_reports; simplify_map_eq; reflexivity | ]).
    split.
    + intros Habs. discriminate.
    + intros _. rewrite !dom_insert_L, dom_empty_L. set_solver.
Qed.

Lemma samples_results_summary_witness :
  exists mcmc_results : gmap string (float * float * float),
    samples_results [[5; 300]; [6; 310]; [7; 290]]%float
      [[1500; 7; 4; 0; 2]; [1510; 8; 5; 0; 3]; [1490; 6; 3; 0; 1]]%float
      (Demo.meta 0 0) = ret mcmc_results /\
    reports mcmc_results "c" [5; 6; 7]%float /\
    reports mcmc_results "rdelta" [1500; 1510; 1490]%float /\
    dom mcmc_results = {[ "c"; "rs"; "rdelta"; "mdelta"; "mdm"; "mgas" ]}.
Proof.
  destruct (samples_results_summary
              [[5; 300]; [6; 310]; [7; 290]]%float
              [[1500; 7; 4; 0; 2]; [1510; 8; 5; 0; 3];
               [1490; 6; 3; 0; 1]]%float (Demo.meta 0 0) 2)
    as (m & Hrun & Hc & _ & Hrdelta & _ & _ & _ & _ & Hdom).
  - right. split; reflexivity.
  - discriminate.
  - repeat constructor.
  - discriminate.
  - repeat constructor.
  - exists m. split; [ exact Hrun | ]. split; [ exact Hc | ].
    split; [ exact Hrdelta | ]. apply Hdom. reflexivity.
Defined.

(** The median of four values lies half-way between the second and the
    third; the 16th percentile of five values lies 64 hundredths of the way
    from the first to the second. *)
Lemma np_percentile_examples :
  np_sort [4; 1; 3; 2]%float = [1; 2; 3; 4]%float /\
  np_percentile [4; 1; 3; 2]%float 50 = 2.5%float /\
  np_percentile [40; 10; 30; 20; 50]%float 16 = 16.4%float /\
  np_percentile [7]%float 84 = 7%float.
Proof. repeat split; vm_compute; reflexivity. Qed.

(** * Further properties of the code *)

(** ** Doubles that are not finite *)

Lemma SFcompare_refl (s : spec_float) :
  s <> S754_nan -> SFcompare s s = Some Eq.
Proof.
  destruct s as [b|b| |b m e]; simpl; intros H; try congruence;
    try (destruct b; reflexivity).
  rewrite Z.compare_refl.
  assert (Pos.compare_cont Eq m m = Eq) as -> by apply Pos.compare_cont_refl.
  destruct b; reflexivity.
Qed.

Lemma is_nan_Prim2SF (x : float) :
  is_nan x = true <-> Prim2SF x = S754_nan.
Proof.
  unfold is_nan. rewrite FloatAxioms.eqb_spec. unfold SFeqb. split.
  - intros H. destruct (Prim2SF x) as [b|b| |b m e] eqn:Hs; try reflexivity;
      rewrite SFcompare_refl in H by discriminate; discriminate.
  - intros ->. reflexivity.
Qed.

Lemma is_infinity_Prim2SF (x : float) :
  is_infinity x = true -> exists b, Prim2SF x = S754_infinity b.
Proof.
  unfold is_infinity. rewrite FloatAxioms.eqb_spec, abs_spec.
  change (Prim2SF infinity) with (S754_infinity false).
  destruct (Prim2SF x) as [b|b| |b m e]; simpl; try discriminate; eauto.
Qed.

(** A double that is not finite is a NaN or an infinity. *)
Lemma not_finite_Prim2SF (x : float) :
  is_finite x = false ->
  Prim2SF x = S754_nan \/ exists b, Prim2SF x = S754_infinity b.
Proof.
  unfold is_finite. rewrite negb_false_iff, orb_true_iff.
  intros [H|H]; [ left; apply is_nan_Prim2SF, H
                | right; apply is_infinity_Prim2SF, H ].
Qed.

(** Only a finite double lies strictly between two others. *)
Lemma not_finite_outside (lo x hi : float) :
  is_finite x = false -> (lo <? x)%float && (x <? hi)%float = false.
Proof.
  intros H. rewrite !ltb_spec. unfold SFltb.
  destruct (not_finite_Prim2SF x H) as [->|[b ->]].
  - destruct (Prim2SF lo); reflexivity.
  - destruct b.
    + destruct (Prim2SF lo) as [[]|[]| |[] ? ?]; reflexivity.
    + destruct (Prim2SF lo) as [[]|[]| |[] ? ?];
        destruct (Prim2SF hi) as [[]|[]| |[] ? ?]; reflexivity.
Qed.

Lemma mul_nan (x y : float) :
  is_nan x = true \/ is_nan y = true -> Prim2SF (x * y)%float = S754_nan.
Proof.
  rewrite !is_nan_Prim2SF, mul_spec. unfold SF64mul.
  intros [->| ->]; [ reflexivity | destruct (Prim2SF x); reflexivity ].
Qed.

(** ** The prior and the posterior on proposals that are not finite *)

(** X1: a [theta] of length 2 or 3 with a component that is a NaN or an
    infinity has prior minus infinity whatever the bounds are, and [lnprob]
    returns minus infinity for it without entering the likelihood. *)
Theorem lnprob_rejects_non_finite (E : Extern) (theta y yerr : list float)
    (tspec_data : list tspec_row) (ne : nemodel) (cl : cluster)
    (cmin cmax rsmin rsmax nmin nmax : float) :
  length theta = 2%nat \/ length theta = 3%nat ->
  Exists (fun x => is_finite x = false) theta ->
  lnprior theta cmin cmax rsmin rsmax nmin nmax = Some neg_infinity /\
  lnprob E theta y yerr tspec_data ne cl = (Ok neg_infinity, []).
Proof.
  intros Hlen Hex.
  assert (Hprior : forall a b c d e f,
             lnprior theta a b c d e f = Some neg_infinity).
  { intros a b c0 d e f.
    destruct theta as [|c [|rs [|n [|? ?]]]]; simpl in Hlen;
      try (exfalso; lia); unfold lnprior.
    - apply Exists_cons in Hex as [Hc|Hex];
        [ | apply Exists_cons in Hex as [Hrs|Hex];
            [ | apply Exists_nil in Hex; contradiction ] ].
      + rewrite (not_finite_outside a c b Hc). reflexivity.
      + rewrite (not_finite_outside c0 rs d Hrs), andb_false_r. reflexivity.
    - apply Exists_cons in Hex as [Hc|Hex];
        [ | apply Exists_cons in Hex as [Hrs|Hex];
            [ | apply Exists_cons in Hex as [Hn|Hex];
                [ | apply Exists_nil in Hex; contradiction ] ] ].
      + rewrite (not_finite_outside a c b Hc). reflexivity.
      + rewrite (not_finite_outside c0 rs d Hrs), andb_false_r. reflexivity.
      + rewrite (not_finite_outside e n f Hn), andb_false_r. reflexivity. }
  split; [ apply Hprior | ].
  unfold lnprob, lnprior_default. rewrite Hprior. reflexivity.
Qed.

Lemma lnprob_rejects_non_finite_witness :
  lnprior [nan; 300]%float 1 20 50 1000 5 10 = Some neg_infinity /\
  lnprob Demo.extern [nan; 300]%float [3; 1.8]%float [0.5; 0.5]%float
    Demo.profile Demo.single_beta (Demo.meta 1 0) = (Ok neg_infinity, []).
Proof.
  apply (lnprob_rejects_non_finite Demo.extern [nan; 300]%float).
  - left. reflexivity.
  - apply Exists_cons_hd. reflexivity.
Defined.

(** ** The likelihood and a [theta] of the wrong dimension *)

(** X2: [lnlike] unpacks [theta] by the stellar-mass flag, [lnprior] by the
    length of [theta] alone.  When the two disagree, [lnlike] raises
    [ValueError] on entry, before any quadrature, and so does [lnprob] for a
    [theta] inside the bounds: the mismatch is not turned into a prior of
    minus infinity.  With a flag that is neither 1 nor 0, [lnlike] raises
    [UnboundLocalError]. *)
Theorem lnlike_dimension_mismatch (E : Extern) (theta y yerr : list float)
    (tspec_data : list tspec_row) (ne : nemodel) (cl : cluster) :
  ((incl_mstar cl = 1 /\ length theta <> 3%nat) \/
   (incl_mstar cl = 0 /\ length theta <> 2%nat) ->
   lnlike E theta y yerr tspec_data ne cl
   = (Raise ValueError, [Call_lnlike theta]) /\
   (lnprior_default E theta = Some 0%float ->
    lnprob E theta y yerr tspec_data ne cl
    = (Raise ValueError, [Call_lnlike theta]))) /\
  (incl_mstar cl <> 1 -> incl_mstar cl <> 0 ->
   lnlike E theta y yerr tspec_data ne cl
   = (Raise UnboundLocalError, [Call_lnlike theta])).
Proof.
  split.
  - intros Hmis.
    assert (Hll : lnlike E theta y yerr tspec_data ne cl
                  = (Raise ValueError, [Call_lnlike theta])).
    { unfold lnlike.
      destruct Hmis as [[-> Hlen]|[-> Hlen]]; cbn [Z.eqb Pos.eqb];
        destruct theta as [|a [|b [|c [|d l]]]]; simpl in Hlen;
        try congruence; reflexivity. }
    split; [ exact Hll | ].
    intros Hprior. unfold lnprob. rewrite Hprior. cbn [negb].
    change (negb (is_finite 0)) with false. cbv iota.
    rewrite Hll. reflexivity.
  - intros H1 H0. unfold lnlike.
    apply Z.eqb_neq in H1, H0. rewrite H1, H0. reflexivity.
Qed.

Lemma lnlike_dimension_mismatch_witness :
  lnlike Demo.extern [5; 300; 7]%float [3; 1.8]%float [0.5; 0.5]%float
    Demo.profile Demo.single_beta (Demo.meta 1 0)
  = (Raise ValueError, [Call_lnlike [5; 300; 7]%float]) /\
  lnprob Demo.extern [5; 300; 7]%float [3; 1.8]%float [0.5; 0.5]%float
    Demo.profile Demo.single_beta (Demo.meta 1 0)
  = (Raise ValueError, [Call_lnlike [5; 300; 7]%float]) /\
  lnlike Demo.extern [5; 300]%float [3; 1.8]%float [0.5; 0.5]%float
    Demo.profile Demo.single_beta (Demo.meta 1 2)
  = (Raise UnboundLocalError, [Call_lnlike [5; 300]%float]).
Proof.
  destruct (lnlike_dimension_mismatch Demo.extern [5; 300; 7]%float
              [3; 1.8]%float [0.5; 0.5]%float Demo.profile Demo.single_beta
              (Demo.meta 1 0)) as [H _].
  destruct H as [Hll Hlp]; [ right; split; [ reflexivity | discriminate ] | ].
  split; [ exact Hll | ]. split; [ apply Hlp; reflexivity | ].
  apply (lnlike_dimension_mismatch Demo.extern [5; 300]%float
           [3; 1.8]%float [0.5; 0.5]%float Demo.profile Demo.single_beta
           (Demo.meta 1 2)); discriminate.
Defined.

(** ** The temperature model: shape and index errors *)

(** [seq[i]] succeeds exactly for an index from [-len(seq)] to
    [len(seq) - 1]. *)
Lemma getitem_cases {A} (l : list A) (i : Z) :
  (- Z.of_nat (length l) <= i < Z.of_nat (length l) /\
   exists a, getitem l i = ret a) \/
  (~ (- Z.of_nat (length l) <= i < Z.of_nat (length l)) /\
   getitem l i = raise IndexError).
Proof.
  unfold getitem.
  destruct (i <? 0) eqn:Hneg;
    [ apply Z.ltb_lt in Hneg | apply Z.ltb_ge in Hneg ].
  - destruct ((0 <=? i + Z.of_nat (length l))
              && (i + Z.of_nat (length l) <? Z.of_nat (length l))) eqn:Hr.
    + apply andb_true_iff in Hr as [H1 H2].
      apply Z.leb_le in H1. apply Z.ltb_lt in H2.
      destruct (l !! Z.to_nat (i + Z.of_nat (length l))) as [a|] eqn:Hl.
      * left. split; [ lia | eauto ].
      * apply lookup_ge_None in Hl. lia.
    + right. split; [ | reflexivity ].
      apply andb_false_iff in Hr as [H|H];
        [ apply Z.leb_gt in H | apply Z.ltb_ge in H ]; lia.
  - destruct ((0 <=? i) && (i <? Z.of_nat (length l))) eqn:Hr.
    + apply andb_true_iff in Hr as [H1 H2].
      apply Z.leb_le in H1. apply Z.ltb_lt in H2.
      destruct (l !! Z.to_nat i) as [a|] eqn:Hl.
      * left. split; [ lia | eauto ].
      * apply lookup_ge_None in Hl. lia.
    + right. split; [ | reflexivity ].
      apply andb_false_iff in Hr as [H|H];
        [ apply Z.leb_gt in H | apply Z.ltb_ge in H ]; lia.
Qed.

Lemma getitem_Ok_range {A} (l : list A) (i : Z) (a : A) (t : list event) :
  getitem l i = (Ok a, t) ->
  - Z.of_nat (length l) <= i < Z.of_nat (length l).
Proof.
  intros H. destruct (getitem_cases l i) as [[Hr _]|[_ Hr]];
    [ exact Hr | rewrite Hr in H; discriminate ].
Qed.

(** Every row of the loop other than the reference row reads
    [nemodel['nefit']] at its own index. *)
Lemma Tmodel_loop_nefit (E : Extern) ne cl c rs normsersic ne_ref tspec_ref
    radius_ref (rows : list tspec_row) :
  forall (rr : Z) (acc tfit : list float) (t : list event),
    0 <= rr ->
    Tmodel_loop E ne cl c rs normsersic ne_ref tspec_ref radius_ref
      rows rr acc = (Ok tfit, t) ->
    forall i : nat, (i < length rows)%nat ->
      rr + Z.of_nat i <> refindex cl ->
      rr + Z.of_nat i < Z.of_nat (length (nefit ne)).
Proof.
  induction rows as [|row rest IH]; intros rr acc tfit t Hrr H i Hi Hne;
    simpl in *; [ lia | ].
  destruct (rr =? refindex cl) eqn:Href.
  - destruct i as [|i]; [ apply Z.eqb_eq in Href; lia | ].
    replace (rr + Z.of_nat (S i)) with (rr + 1 + Z.of_nat i) in * by lia.
    eapply IH; [ | exact H | lia | exact Hne ]. lia.
  - apply bind_Ok in H as (ne_sel & t1 & t1' & H1 & H & ->).
    apply bind_Ok in H as (cm_m3 & t2 & t2' & _ & H & ->).
    apply bind_Ok in H as (Msun_kg2 & t3 & t3' & _ & H & ->).
    apply bind_Ok in H as (kpc_m4 & t4 & t4' & _ & H & ->).
    apply bind_Ok in H as (q & t5 & t5' & _ & H & ->).
    destruct i as [|i].
    + apply getitem_Ok_range in H1. lia.
    + replace (rr + Z.of_nat (S i)) with (rr + 1 + Z.of_nat i) in * by lia.
      eapply IH; [ | exact H | lia | exact Hne ]. lia.
Qed.

(** X3: whenever [Tmodel_func] returns, it returns one temperature for every
    row of the profile, the profile is not empty, and [nemodel['nefit']] has
    at least as many entries as the profile has rows: on an empty profile,
    or with a shorter [nefit], it never returns a value. *)
Theorem Tmodel_func_shape (E : Extern) (tspec_data : list tspec_row)
    (ne : nemodel) (cl : cluster) (c rs normsersic : float)
    (tfit : list float) (t : list event) :
  Tmodel_func E tspec_data ne cl c rs normsersic = (Ok tfit, t) ->
  length tfit = length tspec_data /\
  (0 < length tspec_data)%nat /\
  (length tspec_data <= length (nefit ne))%nat.
Proof.
  intros H. unfold Tmodel_func in H.
  apply bind_Ok in H as (ne_ref & t1 & t1' & H1 & H & ->).
  apply bind_Ok in H as (tspec_ref & t2 & t2' & H2 & H & ->).
  apply bind_Ok in H as (radius_ref & t3 & t3' & H3 & H & ->).
  apply getitem_Ok_range in H1, H2. rewrite length_fmap in H2.
  pose proof (Tmodel_loop_nefit E ne cl c rs normsersic ne_ref tspec_ref
                radius_ref tspec_data 0 [] tfit t3' ltac:(lia) H) as Hcover.
  apply Tmodel_loop_Ok in H as (vals & -> & Hlen & _ & _).
  split; [ exact Hlen | ]. split; [ lia | ].
  destruct (decide (length tspec_data <= length (nefit ne))%nat) as [|Hgt];
    [ assumption | exfalso ].
  destruct (decide (Z.of_nat (length (nefit ne)) = refindex cl)) as [Heq|Hne].
  - lia.
  - specialize (Hcover (length (nefit ne)) ltac:(lia)). lia.
Qed.

Lemma Tmodel_func_shape_witness :
  length [751.17204578481358; 1.8]%float = length Demo.profile /\
  (0 < length Demo.profile)%nat /\
  (length Demo.profile <= length (nefit Demo.single_beta))%nat.
Proof.
  apply (Tmodel_func_shape Demo.extern Demo.profile Demo.single_beta
           (Demo.meta 1 0) 5 300 0 [751.17204578481358; 1.8]%float
           [Call_quad (PyFloat 200) (PyFloat 100)]).
  vm_compute. reflexivity.
Defined.

(** X4: with a reference index outside the profile (at or beyond its
    length, or below minus its length; any index when the profile is empty)
    [Tmodel_func] raises [IndexError] before any quadrature. *)
Theorem Tmodel_func_bad_refindex (E : Extern) (tspec_data : list tspec_row)
    (ne : nemodel) (cl : cluster) (c rs normsersic : float) :
  ~ (- Z.of_nat (length tspec_data) <= refindex cl
     < Z.of_nat (length tspec_data)) ->
  Tmodel_func E tspec_data ne cl c rs normsersic = (Raise IndexError, []).
Proof.
  intros Hout. unfold Tmodel_func.
  destruct (getitem_cases (nefit ne) (refindex cl))
    as [[_ [ne_ref ->]]|[_ ->]]; [ | reflexivity ].
  rewrite bind_ret.
  destruct (getitem_cases (tspec <$> tspec_data) (refindex cl))
    as [[Hin _]|[_ ->]]; [ | reflexivity ].
  rewrite length_fmap in Hin. contradiction.
Qed.

Lemma Tmodel_func_bad_refindex_witness :
  Tmodel_func Demo.extern Demo.profile Demo.single_beta (Demo.meta 2 0)
    5 300 0 = (Raise IndexError, []) /\
  Tmodel_func Demo.extern [] Demo.single_beta (Demo.meta (-1) 0)
    5 300 0 = (Raise IndexError, []).
Proof.
  split.
  - apply (Tmodel_func_bad_refindex Demo.extern Demo.profile). simpl. lia.
  - apply (Tmodel_func_bad_refindex Demo.extern []). simpl. lia.
Defined.

(** The anchor condition on a profile of two rows with the reference
    index 1. *)
Lemma Tmodel_func_anchor_witness :
  exists ref_row,
    Demo.profile !! Z.to_nat 1 = Some ref_row /\
    getitem (radius <$> Demo.profile) 1 = ret (radius ref_row) /\
    [751.17204578481358; 1.8]%float !! Z.to_nat 1 = Some (tspec ref_row) /\
    length [751.17204578481358; 1.8]%float = length Demo.profile /\
    [Call_quad (PyFloat 200) (PyFloat 100)]
    = (fun row =>
         Call_quad (PyFloat (radius ref_row)) (PyFloat (radius row)))
        <$> skip_ref 1 0 Demo.profile.
Proof.
  apply (Tmodel_func_anchor Demo.extern Demo.profile Demo.single_beta
           (Demo.meta 1 0) 5 300 0).
  - simpl. lia.
  - vm_compute. reflexivity.
Defined.

(** The same profile with the reference index -1. *)
Lemma Tmodel_func_index_from_end_witness :
  exists radius_ref,
    getitem (radius <$> Demo.profile) (-1) = ret radius_ref /\
    [Call_quad (PyFloat 200) (PyFloat 100);
     Call_quad (PyFloat 200) (PyFloat 200)]
    = (fun row => Call_quad (PyFloat radius_ref) (PyFloat (radius row)))
        <$> Demo.profile.
Proof.
  apply (Tmodel_func_index_from_end Demo.extern Demo.profile
           Demo.single_beta (Demo.meta (-1) 0) 5 300 0
           [751.17204578481358; 1.8000000000000003]%float).
  - simpl. lia.
  - vm_compute. reflexivity.
Defined.

(** ** The start of the walkers *)

Lemma initial_pos_start (E : Extern) (ml_results : list float)
    (ndim : nat) (i n : nat) :
  initial_pos E ml_results ndim i (S n)
  = (do p <- broadcast2 PrimFloat.add ml_results
               ((fun v => (1e-4 * v)%float) <$> randn E i ndim) ;;
     do ps <- initial_pos E ml_results ndim (S i) n ;;
     ret (p :: ps)).
Proof. reflexivity. Qed.

(** X7: when the starting point [ml_results] has neither the [ndim] entries
    the stellar-mass flag calls for nor a single entry, [fit_mcmc] raises
    [ValueError] while it builds the first walker's position, before the
    sampler runs. *)
Theorem fit_mcmc_bad_start (E : Extern) (tspec_data : list tspec_row)
    (ne : nemodel) (cl : cluster) (ml_results : list float)
    (Nwalkers Nsteps Nburnin ndim : nat) :
  (incl_mstar cl = 1 /\ ndim = 3%nat) \/ (incl_mstar cl = 0 /\ ndim = 2%nat) ->
  (forall i, length (randn E i ndim) = ndim) ->
  length ml_results <> ndim -> length ml_results <> 1%nat ->
  (0 < Nwalkers)%nat ->
  fit_mcmc E tspec_data ne cl ml_results Nwalkers Nsteps Nburnin
  = (Raise ValueError, []).
Proof.
  intros Hflag Hrandn Hn H1 Hw. unfold fit_mcmc.
  assert (Hdims : (if incl_mstar cl =? 1 then ret (3%nat, Nwalkers)
                   else if incl_mstar cl =? 0 then ret (2%nat, Nwalkers)
                   else raise UnboundLocalError) = ret (ndim, Nwalkers)).
  { destruct Hflag as [[-> ->]|[-> ->]]; reflexivity. }
  rewrite Hdims, bind_ret.
  destruct Nwalkers as [|k]; [ lia | ]. rewrite initial_pos_start.
  assert (Hb : broadcast2 PrimFloat.add ml_results
                 ((fun v => (1e-4 * v)%float) <$> randn E 0 ndim)
               = raise ValueError).
  { unfold broadcast2. rewrite length_fmap, Hrandn.
    destruct (Nat.eqb_spec (length ml_results) ndim) as [|_]; [ lia | ].
    specialize (Hrandn 0%nat).
    destruct ml_results as [|a [|b l]]; simpl in H1; try lia;
      destruct (randn E 0 ndim) as [|p [|q r]]; simpl in *;
      try reflexivity;
      destruct Hflag as [[_ ->]|[_ ->]]; discriminate. }
  rewrite Hb. reflexivity.
Qed.

Lemma fit_mcmc_bad_start_witness :
  fit_mcmc Demo.extern Demo.profile Demo.single_beta (Demo.meta 1 0)
    [5; 300; 7]%float 4 5 2 = (Raise ValueError, []).
Proof.
  apply (fit_mcmc_bad_start Demo.extern Demo.profile Demo.single_beta
           (Demo.meta 1 0) [5; 300; 7]%float 4 5 2 2).
  - right. split; reflexivity.
  - intros i. reflexivity.
  - simpl. lia.
  - simpl. lia.
  - lia.
Defined.

(** ** The maximum-likelihood stage *)

(** X8: what [fit_ml] returns as an estimate has the dimension the
    stellar-mass flag calls for, whatever the optimiser does, and is accepted
    as a starting point by [fit_mcmc] under the same cluster information:
    the walkers' positions are built from it, [Nwalkers] of them, each of
    that dimension, and [fit_mcmc] is from there the sampler's run on these
    positions followed by the cut of the burn-in. *)
Theorem fit_ml_seeds_fit_mcmc (E : Extern)
    (minimize : (list float -> M float) -> list float ->
                list (float * float) -> M (list float))
    (tspec_data : list tspec_row) (ne : nemodel) (cl : cluster)
    (c_guess cmin cmax rs_guess rsmin rsmax n_guess nmin nmax : float)
    (ml_results : list float) (t : list event)
    (Nwalkers Nsteps Nburnin : nat) :
  fit_ml E minimize tspec_data ne cl c_guess cmin cmax rs_guess rsmin rsmax
    n_guess nmin nmax = (Ok (Some ml_results), t) ->
  (forall i n, length (randn E i n) = n) ->
  (incl_mstar cl = 1 /\ length ml_results = 3%nat \/
   incl_mstar cl = 0 /\ length ml_results = 2%nat) /\
  exists pos,
    initial_pos E ml_results (length ml_results) 0 Nwalkers = ret pos /\
    length pos = Nwalkers /\
    Forall (fun theta => length theta = length ml_results) pos /\
    fit_mcmc E tspec_data ne cl ml_results Nwalkers Nsteps Nburnin
    = (do chain <- emcee_chain E Nwalkers (length ml_results)
                     (lnprob_args E tspec_data ne cl) pos Nsteps ;;
       do samples <-
         np_reshape (length ml_results)
           (concat (concat (drop Nburnin <$> chain))) ;;
       ret (samples, chain)).
Proof.
  intros Hml Hrandn. unfold fit_ml in Hml.
  assert (Hflag : incl_mstar cl = 1 /\ length ml_results = 3%nat \/
                  incl_mstar cl = 0 /\ length ml_results = 2%nat).
  { destruct (incl_mstar cl =? 1) eqn:H1.
    - apply Z.eqb_eq in H1.
      apply bind_Ok in Hml as (x & t1 & t2 & _ & Hx & _).
      destruct x as [|a [|b [|c [|d l]]]]; try discriminate.
      injection Hx as <- _. left. split; [ exact H1 | reflexivity ].
    - destruct (incl_mstar cl =? 0) eqn:H0.
      + apply Z.eqb_eq in H0.
        apply bind_Ok in Hml as (x & t1 & t2 & _ & Hx & _).
        destruct x as [|a [|b [|c l]]]; try discriminate.
        injection Hx as <- _. right. split; [ exact H0 | reflexivity ].
      + discriminate. }
  split; [ exact Hflag | ].
  apply fit_mcmc_start.
  - destruct Hflag as [[? ->]|[? ->]]; auto.
  - reflexivity.
  - intros i. apply Hrandn.
Qed.

Lemma fit_ml_seeds_fit_mcmc_witness :
  (incl_mstar (Demo.meta 1 1) = 1 /\ length [5; 300; 7]%float = 3%nat \/
   incl_mstar (Demo.meta 1 1) = 0 /\ length [5; 300; 7]%float = 2%nat) /\
  exists pos,
    initial_pos Demo.extern [5; 300; 7]%float 3 0 6 = ret pos /\
    length pos = 6%nat /\
    Forall (fun theta => length theta = 3%nat) pos /\
    fit_mcmc Demo.extern Demo.profile Demo.single_beta (Demo.meta 1 1)
      [5; 300; 7]%float 6 4 1
    = (do chain <- emcee_chain Demo.extern 6 3
                     (lnprob_args Demo.extern Demo.profile Demo.single_beta
                        (Demo.meta 1 1)) pos 4 ;;
       do samples <- np_reshape 3 (concat (concat (drop 1 <$> chain))) ;;
       ret (samples, chain)).
Proof.
  apply (fit_ml_seeds_fit_mcmc Demo.extern (fun nll x0 bounds => ret x0)
           Demo.profile Demo.single_beta (Demo.meta 1 1)
           5 1 20 300 50 1000 7 5 10 [5; 300; 7]%float []).
  - reflexivity.
  - intros i n. apply length_replicate.
Defined.

(** ** The radius search: errors *)

Lemma avoids_bind {A B} (e : exn) (m : M A) (k : A -> M B) :
  avoids e m -> (forall a, avoids e (k a)) -> avoids e (bind m k).
Proof.
  unfold avoids. intros Hm Hk. destruct m as [[a| e' |] t]; simpl in *.
  - specialize (Hk a). destruct (k a) as [r t']. exact Hk.
  - intros [= ->]. apply Hm. reflexivity.
  - discriminate.
Qed.

Lemma quad_const (E : Extern) (v : float) (lo hi : pynum) :
  quad E (fun _ => Some v) lo hi
  = (Ok (integrate E (fun _ => v) lo hi), [Call_quad lo hi]).
Proof. reflexivity. Qed.

Section SearchErrors.

Context (E : Extern).

Lemma search_step_no_IndexError c rs normsersic ne cl st :
  avoids IndexError (search_step E c rs normsersic ne cl st).
Proof.
  unfold search_step. rewrite quad_const.
  apply avoids_bind; [ discriminate | intros q ].
  apply avoids_bind; [ destruct (if count_mstar cl =? 1 then _ else _);
                       discriminate | intros dev ].
  apply avoids_bind; [ unfold float_of_int; case_match; discriminate
                     | intros r ].
  apply avoids_bind; [ unfold py_pow; repeat case_match; discriminate
                     | intros r3 ].
  discriminate.
Qed.

Lemma search_no_IndexError fuel c rs normsersic ne cl st :
  avoids IndexError (search E fuel c rs normsersic ne cl st).
Proof.
  revert st. induction fuel as [|fuel IH]; intros st; simpl;
    destruct (overdensity E <? ratio st)%float; try discriminate.
  apply avoids_bind; [ apply search_step_no_IndexError | exact IH ].
Qed.

(** X9: [calc_rdelta_p] raises [IndexError] exactly when the sample row is
    too short for the parameters it reads: fewer than two entries, or fewer
    than three when the stellar mass is counted. *)
Theorem calc_rdelta_p_index_error (fuel : nat) (row : list float)
    (ne : nemodel) (cl : cluster) :
  result (calc_rdelta_p E fuel row ne cl) = Raise IndexError <->
  (length row < 2)%nat \/ (count_mstar cl = 1 /\ (length row < 3)%nat).
Proof.
  split.
  - intros Hraise.
    destruct (decide ((length row < 2)%nat \/
                      (count_mstar cl = 1 /\ (length row < 3)%nat)))
      as [|Hlong]; [ assumption | exfalso ].
    revert Hraise. change (avoids IndexError (calc_rdelta_p E fuel row ne cl)).
    destruct row as [|c [|rs l]]; simpl in Hlong; try (exfalso; lia).
    unfold calc_rdelta_p, search_init.
    pose proof (getitem_nat (c :: rs :: l) 0 c eq_refl) as G0.
    pose proof (getitem_nat (c :: rs :: l) 1 rs eq_refl) as G1.
    change (Z.of_nat 0) with 0 in G0. change (Z.of_nat 1) with 1 in G1.
    rewrite G0, bind_ret, G1, bind_ret.
    assert (Hn : exists n,
               (if count_mstar cl =? 1 then getitem (c :: rs :: l) 2
                else ret 0%float) = ret n).
    { destruct (count_mstar cl =? 1) eqn:H1; [ | eauto ].
      apply Z.eqb_eq in H1. destruct l as [|n l]; simpl in Hlong;
        [ exfalso; lia | ].
      exists n. apply (getitem_nat (c :: rs :: n :: l) 2 n eq_refl). }
    destruct Hn as [n ->]. rewrite bind_ret, quad_const.
    apply avoids_bind; [ | intros [[[c' rs'] n'] st0] ].
    + apply avoids_bind; [ discriminate | intros q ].
      apply avoids_bind;
        [ destruct (if count_mstar cl =? 1 then _ else _); discriminate
        | intros dev ].
      apply avoids_bind;
        [ unfold int_of_float; case_match; discriminate | intros r0 ].
      discriminate.
    + apply avoids_bind; [ apply search_no_IndexError | intros st ].
      apply avoids_bind;
        [ destruct (mass_dev st); discriminate | intros dev ].
      discriminate.
  - intros [Hshort|[H1 Hshort]]; unfold calc_rdelta_p, search_init.
    + destruct row as [|c [|rs l]]; simpl in Hshort; try lia; reflexivity.
    + rewrite H1. destruct row as [|c [|rs [|n l]]]; simpl in Hshort;
        try lia; reflexivity.
Qed.

End SearchErrors.

Lemma calc_rdelta_p_index_error_witness :
  result (calc_rdelta_p Demo.extern 10 [5; 300]%float Demo.single_beta
            (Demo.meta 0 1)) = Raise IndexError.
Proof.
  apply (calc_rdelta_p_index_error Demo.extern 10 [5; 300]%float
           Demo.single_beta (Demo.meta 0 1)).
  right. split; [ reflexivity | simpl; lia ].
Defined.

Lemma getitem_nat_Ok {A} (l : list A) (i : nat) (a : A) (t : list event) :
  getitem l (Z.of_nat i) = (Ok a, t) -> l !! i = Some a.
Proof.
  unfold getitem.
  destruct (Z.of_nat i <? 0) eqn:Hneg; [ apply Z.ltb_lt in Hneg; lia | ].
  rewrite Nat2Z.id. repeat case_match; simpl; intros [= <- _]; reflexivity.
Qed.

(** X10: once the row has been read, the seed evaluation fails loudly on a
    sample it cannot search from.  With a stellar-mass flag that is neither
    1 nor 0, [calc_rdelta_p] raises [UnboundLocalError]; with a NaN [c] or
    [rs] it raises [ValueError], and with a seed [c*rs] that is infinite
    [OverflowError]; in each case after exactly one call of the quadrature,
    over (0, c*rs). *)
Theorem calc_rdelta_p_seed_errors (E : Extern) (fuel : nat)
    (row : list float) (ne : nemodel) (cl : cluster) (c rs : float) :
  row !! 0%nat = Some c -> row !! 1%nat = Some rs ->
  (count_mstar cl <> 1 -> count_mstar cl <> 0 ->
   calc_rdelta_p E fuel row ne cl
   = (Raise UnboundLocalError, [Call_quad (PyInt 0) (PyFloat (c * rs))])) /\
  (count_mstar cl = 0 \/ (count_mstar cl = 1 /\ exists n, row !! 2%nat = Some n) ->
   (is_nan c = true \/ is_nan rs = true ->
    calc_rdelta_p E fuel row ne cl
    = (Raise ValueError, [Call_quad (PyInt 0) (PyFloat (c * rs))])) /\
   (is_infinity (c * rs) = true ->
    calc_rdelta_p E fuel row ne cl
    = (Raise OverflowError, [Call_quad (PyInt 0) (PyFloat (c * rs))]))).
Proof.
  intros H0 H1.
  pose proof (getitem_nat row 0 c H0) as G0.
  pose proof (getitem_nat row 1 rs H1) as G1.
  change (Z.of_nat 0) with 0 in G0. change (Z.of_nat 1) with 1 in G1.
  split.
  - intros Hn1 Hn0. apply Z.eqb_neq in Hn1, Hn0.
    unfold calc_rdelta_p, search_init.
    rewrite G0, bind_ret, G1, bind_ret, Hn1, Hn0, bind_ret, quad_const.
    reflexivity.
  - intros Hflag.
    assert (Hseed : forall e,
               int_of_float (c * rs) = raise e ->
               calc_rdelta_p E fuel row ne cl
               = (Raise e, [Call_quad (PyInt 0) (PyFloat (c * rs))])).
    { intros e He. unfold calc_rdelta_p, search_init.
      rewrite G0, bind_ret, G1, bind_ret.
      destruct Hflag as [Hc0|[Hc1 [n Hn]]].
      - rewrite Hc0. cbn [Z.eqb]. rewrite bind_ret, quad_const.
        cbn [bind read_var ret app]. rewrite He. reflexivity.
      - pose proof (getitem_nat row 2 n Hn) as G2.
        change (Z.of_nat 2) with 2 in G2.
        rewrite Hc1. cbn [Z.eqb Pos.eqb]. rewrite G2, bind_ret, quad_const.
        cbn [bind read_var ret app]. rewrite He. reflexivity. }
    split.
    + intros Hnan. apply Hseed. unfold int_of_float.
      rewrite (mul_nan c rs Hnan). reflexivity.
    + intros Hinf. apply Hseed. unfold int_of_float.
      destruct (is_infinity_Prim2SF _ Hinf) as [b ->]. reflexivity.
Qed.

Lemma calc_rdelta_p_seed_errors_witness :
  calc_rdelta_p Demo.extern 10 [5; 300]%float Demo.single_beta
    (Demo.meta 0 2)
  = (Raise UnboundLocalError, [Call_quad (PyInt 0) (PyFloat (5 * 300))]) /\
  calc_rdelta_p Demo.extern 10 [nan; 300]%float Demo.single_beta
    (Demo.meta 0 0)
  = (Raise ValueError, [Call_quad (PyInt 0) (PyFloat (nan * 300))]) /\
  calc_rdelta_p Demo.extern 10 [1e200; 1e200; 7]%float Demo.single_beta
    (Demo.meta 0 1)
  = (Raise OverflowError,
     [Call_quad (PyInt 0) (PyFloat (1e200 * 1e200))]).
Proof.
  split; [ | split ].
  - apply (calc_rdelta_p_seed_errors Demo.extern 10 [5; 300]%float
             Demo.single_beta (Demo.meta 0 2) 5 300);
      try reflexivity; discriminate.
  - apply (calc_rdelta_p_seed_errors Demo.extern 10 [nan; 300]%float
             Demo.single_beta (Demo.meta 0 0) nan 300); try reflexivity.
    + left. reflexivity.
    + left. reflexivity.
  - apply (calc_rdelta_p_seed_errors Demo.extern 10 [1e200; 1e200; 7]%float
             Demo.single_beta (Demo.meta 0 1) 1e200 1e200); try reflexivity.
    right. split; [ reflexivity | ]. exists 7%float. reflexivity.
Defined.

(** ** The radius search: what is returned *)

(** What a returning call went through: the seed evaluation, then passes
    that each found the ratio above the target, up to a state whose ratio is
    not above it. *)
Lemma calc_rdelta_p_Ok_inv (E : Extern) (fuel : nat) (row : list float)
    (ne : nemodel) (cl : cluster) (rdelta : Z)
    (mdelta mdm mstars mgas : float) (t : list event) :
  calc_rdelta_p E fuel row ne cl
  = (Ok (rdelta, mdelta, mdm, mstars, mgas), t) ->
  exists c rs normsersic st0 t0 k st ts dev,
    search_init E row ne cl = (Ok (c, rs, normsersic, st0), t0) /\
    passes E c rs normsersic ne cl k st0 st ts /\
    (k <= fuel)%nat /\
    (overdensity E <? ratio st)%float = false /\
    mass_dev st = Some dev /\
    t = t0 ++ ts /\
    rdelta = rdelta_tot st /\
    mdelta = (mass_tot st / Msun E)%float /\
    mdm = (mass_nfw st / Msun E)%float /\
    mstars = (dev / Msun E)%float /\
    mgas = (mass_gas st / Msun E)%float.
Proof.
  intros H. unfold calc_rdelta_p in H.
  apply bind_Ok in H as ([[[c rs] n] st0] & t0 & t' & Hinit & H & ->).
  apply bind_Ok in H as (st & ts & t'' & Hsearch & H & ->).
  apply bind_Ok in H as (dev & t5 & t6 & Hdev & H & ->).
  apply read_var_Ok in Hdev as [Hdev ->].
  injection H as <- <- <- <- <- <-.
  apply search_Ok_inv in Hsearch as (Hle & k & Hk & Hpass).
  exists c, rs, n, st0, t0, k, st, ts, dev.
  rewrite !app_nil_r. repeat split; assumption.
Qed.

(** X11: the radius [calc_rdelta_p] returns is never below the integer part
    [n0] of the seed [c*rs], and the cost of the call is one quadrature at
    the seed and one at every integer radius from [n0 + 1] up to the
    returned one: [rdelta - n0 + 1] calls in all. *)
Theorem calc_rdelta_p_cost (E : Extern) (fuel : nat) (row : list float)
    (ne : nemodel) (cl : cluster) (rdelta : Z)
    (mdelta mdm mstars mgas : float) (t : list event) :
  calc_rdelta_p E fuel row ne cl
  = (Ok (rdelta, mdelta, mdm, mstars, mgas), t) ->
  exists c rs n0,
    row !! 0%nat = Some c /\ row !! 1%nat = Some rs /\
    int_of_float (c * rs) = ret n0 /\
    n0 <= rdelta /\
    t = Call_quad (PyInt 0) (PyFloat (c * rs))
        :: ((fun j => Call_quad (PyInt 0) (PyInt (n0 + Z.of_nat j)))
              <$> seq 1 (Z.to_nat (rdelta - n0))) /\
    Z.of_nat (length t) = rdelta - n0 + 1.
Proof.
  intros H.
  apply calc_rdelta_p_Ok_inv in H
    as (c & rs & n & st0 & t0 & k & st & ts & dev & Hinit & Hpass & _ & _
        & _ & -> & -> & _).
  apply search_init_Ok in Hinit as (Hc & Hrs & Hint & -> & _).
  apply passes_radius in Hpass as (Hrad & -> & _).
  exists c, rs, (rdelta_tot st0).
  replace (Z.to_nat (rdelta_tot st - rdelta_tot st0)) with k by lia.
  repeat split; try assumption; [ lia | ].
  simpl. rewrite length_fmap, length_seq. lia.
Qed.

Lemma calc_rdelta_p_cost_witness :
  exists c rs n0,
    [2.5; 1.1]%float !! 0%nat = Some c /\
    [2.5; 1.1]%float !! 1%nat = Some rs /\
    int_of_float (c * rs) = ret n0 /\
    n0 <= 5 /\
    [Call_quad (PyInt 0) (PyFloat 2.75); Call_quad (PyInt 0) (PyInt 3);
     Call_quad (PyInt 0) (PyInt 4); Call_quad (PyInt 0) (PyInt 5)]
    = Call_quad (PyInt 0) (PyFloat (c * rs))
      :: ((fun j => Call_quad (PyInt 0) (PyInt (n0 + Z.of_nat j)))
            <$> seq 1 (Z.to_nat (5 - n0))) /\
    Z.of_nat (length
      [Call_quad (PyInt 0) (PyFloat 2.75); Call_quad (PyInt 0) (PyInt 3);
       Call_quad (PyInt 0) (PyInt 4); Call_quad (PyInt 0) (PyInt 5)])
    = 5 - n0 + 1.
Proof.
  apply (calc_rdelta_p_cost Demo.extern 10 [2.5; 1.1]%float Demo.single_beta
           (Demo.meta 0 0) 5 200025 200000 0 25).
  vm_compute. reflexivity.
Defined.

Section SearchMasses.

Context (E : Extern) (ne : nemodel) (cl : cluster).

Lemma search_init_masses (row : list float) (c rs normsersic : float)
    (st0 : search_state) (t0 : list event) :
  search_init E row ne cl = (Ok (c, rs, normsersic, st0), t0) ->
  evaluated_at E c rs normsersic ne cl (PyFloat (c * rs)) st0 /\
  (count_mstar cl = 1 -> row !! 2%nat = Some normsersic).
Proof.
  unfold search_init. intros H.
  apply bind_Ok in H as (c' & t1 & t1' & Hc & H & ->).
  apply bind_Ok in H as (rs' & t2 & t2' & Hrs & H & ->).
  apply bind_Ok in H as (n' & t3 & t3' & Hn & H & ->).
  rewrite quad_const in H.
  apply bind_Ok in H as (q & t4 & t4' & Hq & H & ->).
  injection Hq as <- <-.
  apply bind_Ok in H as (dev & t5 & t5' & Hdev & H & ->).
  apply bind_Ok in H as (r0 & t6 & t6' & Hr0 & H & ->).
  injection H as <- <- <- <- <-.
  apply read_var_Ok in Hdev as [Hdev ->].
  unfold evaluated_at. simpl.
  destruct (count_mstar cl =? 1) eqn:H1.
  - apply Z.eqb_eq in H1. injection Hdev as <-.
    repeat split; try reflexivity.
    + intros H0. congruence.
    + eauto.
    + intros _. apply (getitem_nat_Ok row 2 _ _ Hn).
  - apply Z.eqb_neq in H1. destruct (count_mstar cl =? 0) eqn:H0;
      [ | discriminate ].
    injection Hdev as <-. repeat split; try reflexivity.
    + intros Habs. contradiction.
    + eauto.
    + intros Habs. contradiction.
Qed.

Lemma search_step_masses (c rs normsersic : float) (st st1 : search_state)
    (t1 : list event) :
  search_step E c rs normsersic ne cl st = (Ok st1, t1) ->
  (count_mstar cl = 0 -> mass_dev st = Some 0%float) ->
  rdelta_tot st1 = rdelta_tot st + 1 /\
  evaluated_at E c rs normsersic ne cl (PyInt (rdelta_tot st1)) st1.
Proof.
  unfold search_step. intros H Hzero. rewrite quad_const in H.
  apply bind_Ok in H as (q & t & t' & Hq & H & ->).
  injection Hq as <- <-.
  apply bind_Ok in H as (dev & t2 & t2' & Hdev & H & ->).
  apply bind_Ok in H as (r & t3 & t3' & Hr & H & ->).
  apply bind_Ok in H as (r3 & t4 & t4' & Hr3 & H & ->).
  injection H as <- <-.
  apply read_var_Ok in Hdev as [Hdev ->].
  unfold evaluated_at. simpl. split; [ reflexivity | ].
  destruct (count_mstar cl =? 1) eqn:H1.
  - apply Z.eqb_eq in H1. injection Hdev as <-.
    repeat split; try reflexivity; [ intros H0; congruence | eauto ].
  - apply Z.eqb_neq in H1.
    repeat split; try reflexivity;
      [ intros Habs; contradiction | exact Hzero | eauto ].
Qed.

(** After at least one pass the state holds the masses at its own integer
    radius. *)
Lemma passes_masses (c rs normsersic : float) (k : nat)
    (st0 st : search_state) (ts : list event) :
  passes E c rs normsersic ne cl k st0 st ts ->
  (count_mstar cl = 0 -> mass_dev st0 = Some 0%float) ->
  (k = 0%nat /\ st = st0) \/
  ((0 < k)%nat /\
   evaluated_at E c rs normsersic ne cl (PyInt (rdelta_tot st)) st).
Proof.
  induction 1 as [st|k st st1 st' t1 t Hgt Hstep Hpass IH]; intros Hzero.
  - left. split; reflexivity.
  - right. split; [ lia | ].
    destruct (search_step_masses c rs normsersic st st1 t1 Hstep Hzero)
      as (_ & Hev).
    destruct IH as [[_ ->]|[_ IH]]; [ | exact Hev | exact IH ].
    destruct Hev as (_ & _ & _ & H0 & _). exact H0.
Qed.

End SearchMasses.

(** X12: the four masses [calc_rdelta_p] returns belong to one evaluation,
    at the last radius evaluated: the returned integer radius when the loop
    made a pass, the seed [c*rs] itself when it made none (the returned
    radius is then [int(c*rs)]).  The halo mass is [nfw_mass_model] there,
    the gas mass the quadrature over (0, r) of the constant
    [mgas_intmodel(r)], the stellar mass the Sersic mass when the stellar
    mass is counted and exactly 0 when it is not, and the total is their
    sum; each is divided by [Msun]. *)
Theorem calc_rdelta_p_masses (E : Extern) (fuel : nat) (row : list float)
    (ne : nemodel) (cl : cluster) (rdelta : Z)
    (mdelta mdm mstars mgas : float) (t : list event) :
  calc_rdelta_p E fuel row ne cl
  = (Ok (rdelta, mdelta, mdm, mstars, mgas), t) ->
  exists c rs n0 r nfw dev gas,
    row !! 0%nat = Some c /\ row !! 1%nat = Some rs /\
    int_of_float (c * rs) = ret n0 /\
    r = (if rdelta =? n0 then PyFloat (c * rs) else PyInt rdelta) /\
    nfw = nfw_mass_model E r c rs (cl_z cl) /\
    gas = (integrate E (fun _ => mgas_intmodel E r ne) (PyInt 0) r
           * Msun E)%float /\
    (count_mstar cl = 0 -> dev = 0%float) /\
    (count_mstar cl = 1 ->
     exists normsersic,
       row !! 2%nat = Some normsersic /\
       dev = (sersic_mass_model E r normsersic cl * Msun E)%float) /\
    mdelta = ((nfw + dev + gas) / Msun E)%float /\
    mdm = (nfw / Msun E)%float /\
    mstars = (dev / Msun E)%float /\
    mgas = (gas / Msun E)%float.
Proof.
  intros H.
  apply calc_rdelta_p_Ok_inv in H
    as (c & rs & n & st0 & t0 & k & st & ts & dev & Hinit & Hpass & _ & _
        & Hdev & _ & -> & -> & -> & -> & ->).
  destruct (search_init_masses E ne cl row c rs n st0 t0 Hinit)
    as (Hev0 & Hn).
  apply search_init_Ok in Hinit as (Hc & Hrs & Hint & _).
  pose proof (passes_radius E c rs n ne cl k st0 st ts Hpass)
    as (Hrad & _ & _).
  assert (Hzero : count_mstar cl = 0 -> mass_dev st0 = Some 0%float)
    by (destruct Hev0 as (_ & _ & _ & H0 & _); exact H0).
  assert (Hev : evaluated_at E c rs n ne cl
                  (if rdelta_tot st =? rdelta_tot st0
                   then PyFloat (c * rs) else PyInt (rdelta_tot st)) st).
  { destruct (passes_masses E ne cl c rs n k st0 st ts Hpass Hzero)
      as [[_ ->]|[Hk Hev]].
    - rewrite Z.eqb_refl. exact Hev0.
    - destruct (rdelta_tot st =? rdelta_tot st0) eqn:Heq;
        [ apply Z.eqb_eq in Heq; lia | exact Hev ]. }
  destruct Hev as (Hnfw & Hgas & H1 & H0 & dev' & Hdev' & Htot).
  rewrite Hdev in Hdev'. injection Hdev' as <-.
  exists c, rs, (rdelta_tot st0),
    (if rdelta_tot st =? rdelta_tot st0
     then PyFloat (c * rs) else PyInt (rdelta_tot st)),
    (mass_nfw st), dev, (mass_gas st).
  repeat (split; [ first [ assumption | reflexivity ] | ]).
  split; [ intros Hc0; specialize (H0 Hc0); congruence | ].
  split; [ intros Hc1; exists n; split; [ auto | ];
           specialize (H1 Hc1); congruence | ].
  rewrite Htot. repeat split; reflexivity.
Qed.

Lemma calc_rdelta_p_masses_witness :
  exists c rs n0 r nfw dev gas,
    [0.5; 5.5]%float !! 0%nat = Some c /\
    [0.5; 5.5]%float !! 1%nat = Some rs /\
    int_of_float (c * rs) = ret n0 /\
    r = (if 2 =? n0 then PyFloat (c * rs) else PyInt 2) /\
    nfw = nfw_mass_model Demo.extern r c rs (cl_z (Demo.meta 0 0)) /\
    gas = (integrate Demo.extern
             (fun _ => mgas_intmodel Demo.extern r Demo.single_beta)
             (PyInt 0) r * Msun Demo.extern)%float /\
    (count_mstar (Demo.meta 0 0) = 0 -> dev = 0%float) /\
    (count_mstar (Demo.meta 0 0) = 1 ->
     exists normsersic,
       [0.5; 5.5]%float !! 2%nat = Some normsersic /\
       dev = (sersic_mass_model Demo.extern r normsersic (Demo.meta 0 0)
              * Msun Demo.extern)%float) /\
    22007.5625%float = ((nfw + dev + gas) / Msun Demo.extern)%float /\
    22000%float = (nfw / Msun Demo.extern)%float /\
    0%float = (dev / Msun Demo.extern)%float /\
    7.5625%float = (gas / Msun Demo.extern)%float.
Proof.
  apply (calc_rdelta_p_masses Demo.extern 10 [0.5; 5.5]%float
           Demo.single_beta (Demo.meta 0 0) 2 22007.5625 22000 0 7.5625
           [Call_quad (PyInt 0) (PyFloat 2.75)]).
  vm_compute. reflexivity.
Defined.

(** ** The batch of derived quantities *)

Lemma calc_posterior_mcmc_cons (E : Extern) (fuel : nat) (row : list float)
    (rest : list (list float)) (ne : nemodel) (cl : cluster) :
  calc_posterior_mcmc E fuel (row :: rest) ne cl
  = (do r <- calc_rdelta_p E fuel row ne cl ;;
     do rs <- calc_posterior_mcmc E fuel rest ne cl ;;
     ret (aux_row r :: rs)).
Proof.
  simpl. destruct (calc_rdelta_p E fuel row ne cl) as [[r| |] t];
    [ | reflexivity | reflexivity ].
  destruct r as [[[[rdelta mdelta] mdm] mstars] mgas]. reflexivity.
Qed.

Lemma calc_posterior_mcmc_Ok (E : Extern) (fuel : nat) (ne : nemodel)
    (cl : cluster) (samples : list (list float)) :
  forall (aux : list (list float)) (t : list event),
    calc_posterior_mcmc E fuel samples ne cl = (Ok aux, t) ->
    Forall2 (fun row arow =>
               exists r tr, calc_rdelta_p E fuel row ne cl = (Ok r, tr) /\
                            arow = aux_row r) samples aux.
Proof.
  induction samples as [|row rest IH]; intros aux t H.
  - injection H as <- _. constructor.
  - rewrite calc_posterior_mcmc_cons in H.
    apply bind_Ok in H as (r & t1 & t2 & Hr & H & ->).
    apply bind_Ok in H as (rs & t3 & t4 & Hrs & H & ->).
    injection H as <- _. constructor; [ eauto | eapply IH, Hrs ].
Qed.

(** X13: when [calc_posterior_mcmc] returns, its array has one row for
    every sample, in the order of the samples, and row [i] holds the five
    quantities [calc_rdelta_p] returns for sample [i].  It returns only if
    [calc_rdelta_p] returns for every sample: one sample that raises, or
    whose search does not end, costs the whole batch. *)
Theorem calc_posterior_mcmc_aligned (E : Extern) (fuel : nat)
    (samples : list (list float)) (ne : nemodel) (cl : cluster) :
  (forall aux t,
     calc_posterior_mcmc E fuel samples ne cl = (Ok aux, t) ->
     length aux = length samples /\
     Forall (fun arow => length arow = 5%nat) aux /\
     forall (i : nat) row, samples !! i = Some row ->
       exists r tr, calc_rdelta_p E fuel row ne cl = (Ok r, tr) /\
                    aux !! i = Some (aux_row r)) /\
  (forall row, row ∈ samples ->
     (forall r, result (calc_rdelta_p E fuel row ne cl) <> Ok r) ->
     forall aux, result (calc_posterior_mcmc E fuel samples ne cl) <> Ok aux).
Proof.
  split.
  - intros aux t H. apply calc_posterior_mcmc_Ok in H.
    split; [ symmetry; eapply Forall2_length, H | ]. split.
    + clear -H. induction H as [|row arow rows aux (r & tr & _ & ->) _ IH];
        constructor; [ | exact IH ].
      destruct r as [[[[? ?] ?] ?] ?]. reflexivity.
    + intros i row Hi.
      destruct (Forall2_lookup_l _ _ _ _ _ H Hi)
        as (arow & Harow & r & tr & Hr & ->).
      eauto.
  - intros row Hin Hfail aux Hok.
    destruct (calc_posterior_mcmc E fuel samples ne cl) as [o t] eqn:Hrun.
    simpl in Hok. subst o. apply calc_posterior_mcmc_Ok in Hrun.
    apply list_elem_of_lookup in Hin as [i Hi].
    destruct (Forall2_lookup_l _ _ _ _ _ Hrun Hi)
      as (arow & _ & r & tr & Hr & _).
    apply (Hfail r). rewrite Hr. reflexivity.
Qed.

Lemma calc_posterior_mcmc_aligned_witness :
  (length [[1500; 122250000; 120000000; 0; 2250000]]%float
   = length [[5; 300]]%float) /\
  (forall aux,
     result (calc_posterior_mcmc Demo.extern 10
               [[5; 300]; [nan; 300]]%float Demo.single_beta
               (Demo.meta 0 0)) <> Ok aux).
Proof.
  destruct (calc_posterior_mcmc_aligned Demo.extern 10 [[5; 300]]%float
              Demo.single_beta (Demo.meta 0 0)) as [Hok _].
  destruct (calc_posterior_mcmc_aligned Demo.extern 10
              [[5; 300]; [nan; 300]]%float Demo.single_beta (Demo.meta 0 0))
    as [_ Hfail].
  split.
  - apply (Hok [[1500; 122250000; 120000000; 0; 2250000]]%float
               [Call_quad (PyInt 0) (PyFloat 1500)]).
    vm_compute. reflexivity.
  - apply (Hfail [nan; 300]%float).
    + apply (list_elem_of_lookup_2 _ 1%nat). reflexivity.
    + intros r. vm_compute. discriminate.
Defined.

(** ** From the batch to the summary *)

Lemma length_estimates (a : list (list float)) (r : list float)
    (rest : list (list float)) :
  a = r :: rest -> length (estimate <$> percentiles a) = length r.
Proof.
  intros Ha. rewrite (estimate_percentiles a r rest Ha).
  rewrite length_fmap, length_seq. reflexivity.
Qed.

(** For arrays of the right numbers of columns the summary is returned, with
    the keys the flag calls for. *)
Lemma samples_results_keys (samples samples_aux : list (list float))
    (cl : cluster) (r r' : list float) (rest rest' : list (list float)) :
  samples = r :: rest -> samples_aux = r' :: rest' ->
  (count_mstar cl = 1 /\ length r = 3%nat) \/
  (count_mstar cl = 0 /\ length r = 2%nat) ->
  length r' = 5%nat ->
  exists mcmc_results : gmap string (float * float * float),
    samples_results samples samples_aux cl = ret mcmc_results /\
    dom mcmc_results = result_keys cl.
Proof.
  intros Hs Hs' Hflag Hr'. unfold samples_results, result_keys.
  rewrite (estimates_cons samples r rest Hs).
  rewrite (estimates_cons samples_aux r' rest' Hs').
  pose proof (length_estimates samples r rest Hs) as Hl.
  pose proof (length_estimates samples_aux r' rest' Hs') as Hl'.
  rewrite Hr' in Hl'.
  destruct (estimate <$> percentiles samples_aux)
    as [|a1 [|a2 [|a3 [|a4 [|a5 [|a6 l']]]]]]; simpl in Hl'; try lia.
  destruct Hflag as [[Hc Hr]|[Hc Hr]]; rewrite Hr in Hl; rewrite Hc;
    cbn [Z.eqb Pos.eqb].
  - destruct (estimate <$> percentiles samples)
      as [|c1 [|c2 [|c3 [|c4 l]]]]; simpl in Hl; try lia.
    rewrite !bind_ret. eexists. split; [ reflexivity | ].
    rewrite !dom_insert_L, dom_empty_L. set_solver.
  - destruct (estimate <$> percentiles samples)
      as [|c1 [|c2 [|c3 l]]]; simpl in Hl; try lia.
    rewrite !bind_ret. eexists. split; [ reflexivity | ].
    rewrite !dom_insert_L, dom_empty_L. set_solver.
Qed.

(** X14: the derived-quantity stage and the summary fit together.  For a
    non-empty sample array whose rows have the dimension the flag calls
    for, whatever [calc_posterior_mcmc] returns is accepted by
    [samples_results], which returns the dictionary with the keys of that
    flag: the five-name unpacking cannot fail on it. *)
Theorem posterior_stages_compose (E : Extern) (fuel : nat)
    (samples aux : list (list float)) (ne : nemodel) (cl : cluster)
    (ndim : nat) (t : list event) :
  (count_mstar cl = 1 /\ ndim = 3%nat) \/
  (count_mstar cl = 0 /\ ndim = 2%nat) ->
  samples <> [] -> Forall (fun r => length r = ndim) samples ->
  calc_posterior_mcmc E fuel samples ne cl = (Ok aux, t) ->
  exists mcmc_results : gmap string (float * float * float),
    samples_results samples aux cl = ret mcmc_results /\
    dom mcmc_results = result_keys cl.
Proof.
  intros Hflag Hne Hall Hrun.
  destruct (first_row samples ndim Hne Hall) as (r & rest & Hs & Hr).
  apply calc_posterior_mcmc_Ok in Hrun. rewrite Hs in Hrun.
  destruct aux as [|r' rest']; [ inversion Hrun | ].
  apply Forall2_cons in Hrun as [(res & tr & _ & ->) _].
  apply (samples_results_keys samples (aux_row res :: rest') cl r
           (aux_row res) rest rest' Hs eq_refl).
  - destruct Hflag as [[? ->]|[? ->]]; auto.
  - destruct res as [[[[? ?] ?] ?] ?]. reflexivity.
Qed.

Lemma posterior_stages_compose_witness :
  exists mcmc_results : gmap string (float * float * float),
    samples_results [[5; 300]; [2.5; 1.1]]%float
      [[1500; 122250000; 120000000; 0; 2250000];
       [5; 200025; 200000; 0; 25]]%float (Demo.meta 0 0)
    = ret mcmc_results /\
    dom mcmc_results = result_keys (Demo.meta 0 0).
Proof.
  apply (posterior_stages_compose Demo.extern 10
           [[5; 300]; [2.5; 1.1]]%float
           [[1500; 122250000; 120000000; 0; 2250000];
            [5; 200025; 200000; 0; 25]]%float
           Demo.single_beta (Demo.meta 0 0) 2
           [Call_quad (PyInt 0) (PyFloat 1500);
            Call_quad (PyInt 0) (PyFloat 2.75);
            Call_quad (PyInt 0) (PyInt 3); Call_quad (PyInt 0) (PyInt 4);
            Call_quad (PyInt 0) (PyInt 5)]).
  - right. split; reflexivity.
  - discriminate.
  - repeat constructor.
  - vm_compute. reflexivity.
Defined.

(** X15: [samples_results] raises [ValueError] when a non-empty array has
    the wrong number of columns: a sample array that has not three columns
    with the stellar mass counted, or not two without it, and, whatever the
    flag is and whatever the non-empty sample array, an array of derived
    quantities that has not five. *)
Theorem samples_results_wrong_columns (samples samples_aux : list (list float))
    (cl : cluster) (r : list float) (rest : list (list float)) :
  (samples = r :: rest ->
   (count_mstar cl = 1 /\ length r <> 3%nat) \/
   (count_mstar cl = 0 /\ length r <> 2%nat) ->
   samples_results samples samples_aux cl = (Raise ValueError, [])) /\
  (samples <> [] -> samples_aux = r :: rest -> length r <> 5%nat ->
   samples_results samples samples_aux cl = (Raise ValueError, [])).
Proof.
  split.
  - intros Hs Hflag. unfold samples_results.
    rewrite (estimates_cons samples r rest Hs).
    pose proof (length_estimates samples r rest Hs) as Hl.
    destruct Hflag as [[Hc Hr]|[Hc Hr]]; rewrite Hc; cbn [Z.eqb Pos.eqb].
    + destruct (estimate <$> percentiles samples)
        as [|c1 [|c2 [|c3 [|c4 l]]]]; simpl in Hl; try reflexivity.
      congruence.
    + destruct (estimate <$> percentiles samples)
        as [|c1 [|c2 [|c3 l]]]; simpl in Hl; try reflexivity.
      congruence.
  - intros Hne Hs Hr. unfold samples_results.
    destruct samples as [|r0 rest0]; [ congruence | ].
    rewrite (estimates_cons (r0 :: rest0) r0 rest0 eq_refl).
    pose proof (length_estimates samples_aux r rest Hs) as Hl.
    assert (Haux : (do v <- estimates samples_aux ;;
                    match v with
                    | [rdelta_mcmc; mdelta_mcmc; mdm_mcmc; mstars_mcmc;
                       mgas_mcmc] =>
                        ret (rdelta_mcmc, mdelta_mcmc, mdm_mcmc, mstars_mcmc,
                             mgas_mcmc)
                    | _ => raise ValueError
                    end) = raise ValueError).
    { rewrite (estimates_cons samples_aux r rest Hs).
      destruct (estimate <$> percentiles samples_aux)
        as [|a1 [|a2 [|a3 [|a4 [|a5 [|a6 l']]]]]]; simpl in Hl;
        try reflexivity. congruence. }
    rewrite Haux.
    set (samples := r0 :: rest0).
    destruct (count_mstar cl =? 1).
    + destruct (estimate <$> percentiles samples)
        as [|c1 [|c2 [|c3 [|c4 l]]]]; reflexivity.
    + destruct (count_mstar cl =? 0); [ | reflexivity ].
      destruct (estimate <$> percentiles samples)
        as [|c1 [|c2 [|c3 l]]]; reflexivity.
Qed.

Lemma samples_results_wrong_columns_witness :
  samples_results [[5; 300]; [6; 310]]%float
    [[1500; 7; 4; 0; 2]; [1510; 8; 5; 0; 3]]%float (Demo.meta 0 1)
  = (Raise ValueError, []) /\
  samples_results [[5; 300]; [6; 310]]%float
    [[1500; 7; 4; 0]; [1510; 8; 5; 0]]%float (Demo.meta 0 0)
  = (Raise ValueError, []).
Proof.
  destruct (samples_results_wrong_columns [[5; 300]; [6; 310]]%float
              [[1500; 7; 4; 0; 2]; [1510; 8; 5; 0; 3]]%float (Demo.meta 0 1)
              [5; 300]%float [[6; 310]]%float) as [Hsamples _].
  destruct (samples_results_wrong_columns [[5; 300]; [6; 310]]%float
              [[1500; 7; 4; 0]; [1510; 8; 5; 0]]%float (Demo.meta 0 0)
              [1500; 7; 4; 0]%float [[1510; 8; 5; 0]]%float) as [_ Haux].
  split.
  - apply Hsamples; [ reflexivity | ].
    left. split; [ reflexivity | discriminate ].
  - apply Haux; [ discriminate | reflexivity | discriminate ].
Defined.

(** ** The cost of one likelihood evaluation *)

Lemma broadcast2_trace (op : float -> float -> float) (a b : list float) :
  trace (broadcast2 op a b) = [].
Proof. unfold broadcast2. repeat case_match; reflexivity. Qed.

Lemma Tmodel_func_calls (E : Extern) (tspec_data : list tspec_row)
    (ne : nemodel) (cl : cluster) (c rs normsersic : float)
    (tfit : list float) (t : list event) :
  Tmodel_func E tspec_data ne cl c rs normsersic = (Ok tfit, t) ->
  exists radius_ref,
    getitem (radius <$> tspec_data) (refindex cl) = ret radius_ref /\
    t = (fun row => Call_quad (PyFloat radius_ref) (PyFloat (radius row)))
          <$> skip_ref (refindex cl) 0 tspec_data.
Proof.
  intros H. unfold Tmodel_func in H.
  apply bind_Ok in H as (ne_ref & t1 & t1' & H1 & H & ->).
  apply bind_Ok in H as (tspec_ref & t2 & t2' & H2 & H & ->).
  apply bind_Ok in H as (radius_ref & t3 & t3' & H3 & H & ->).
  pose proof (getitem_trace (nefit ne) (refindex cl)) as G1.
  pose proof (getitem_trace (tspec <$> tspec_data) (refindex cl)) as G2.
  pose proof (getitem_trace (radius <$> tspec_data) (refindex cl)) as G3.
  unfold trace in G1, G2, G3.
  rewrite H1 in G1. rewrite H2 in G2. rewrite H3 in G3. simpl in G1, G2, G3.
  subst t1 t2 t3. simpl.
  apply Tmodel_loop_Ok in H as (vals & -> & _ & _ & ->).
  exists radius_ref. split; [ exact H3 | reflexivity ].
Qed.

Lemma length_skip_ref (refindex : Z) (rows : list tspec_row) :
  forall rr : Z,
    (rr <= refindex < rr + Z.of_nat (length rows) ->
     S (length (skip_ref refindex rr rows)) = length rows) /\
    (~ (rr <= refindex < rr + Z.of_nat (length rows)) ->
     length (skip_ref refindex rr rows) = length rows).
Proof.
  induction rows as [|row rest IH]; intros rr; simpl length; simpl skip_ref.
  - split; [ lia | reflexivity ].
  - destruct (IH (rr + 1)) as [IHin IHout].
    destruct (rr =? refindex) eqn:Heq;
      [ apply Z.eqb_eq in Heq | apply Z.eqb_neq in Heq ]; simpl length.
    + split; [ intros _; rewrite IHout by lia; reflexivity | lia ].
    + split; intros H.
      * rewrite IHin by lia. reflexivity.
      * rewrite IHout by lia. reflexivity.
Qed.

(** X16: a call of [lnlike] that returns has entered [lnlike] once and
    called the quadrature once for every row of the profile except the row
    whose index equals the reference index: one call less than the profile
    has rows for a reference index counted from the start, as many calls as
    rows for one counted from the end. *)
Theorem lnlike_cost (E : Extern) (theta y yerr : list float)
    (tspec_data : list tspec_row) (ne : nemodel) (cl : cluster)
    (v : float) (t : list event) :
  lnlike E theta y yerr tspec_data ne cl = (Ok v, t) ->
  exists radius_ref,
    t = Call_lnlike theta
        :: ((fun row => Call_quad (PyFloat radius_ref) (PyFloat (radius row)))
              <$> skip_ref (refindex cl) 0 tspec_data) /\
    length t
    = if 0 <=? refindex cl then length tspec_data
      else S (length tspec_data).
Proof.
  intros H. unfold lnlike in H.
  apply bind_Ok in H as ([] & t0 & t0' & Htick & H & ->).
  injection Htick as <-.
  apply bind_Ok in H as ([[c rs] n] & t1 & t1' & Hpars & H & ->).
  assert (t1 = []) as ->.
  { unfold ret, raise in Hpars. repeat case_match; congruence. }
  apply bind_Ok in H as (model & t2 & t2' & Hmodel & H & ->).
  apply bind_Ok in H as (diff & t3 & t3' & Hdiff & H & ->).
  apply bind_Ok in H as (chi & t4 & t4' & Hchi & H & ->).
  apply bind_Ok in H as (terms & t5 & t5' & Hterms & H & ->).
  injection H as _ <-.
  pose proof (broadcast2_trace PrimFloat.sub y model) as G3.
  rewrite Hdiff in G3.
  pose proof (broadcast2_trace PrimFloat.div
                ((fun v => pow E v 2) <$> diff)
                ((fun v => pow E v 2) <$> yerr)) as G4.
  rewrite Hchi in G4.
  pose proof (broadcast2_trace PrimFloat.add chi
                ((fun v => np_log E (2 * np_pi * pow E v 2)%float) <$> yerr))
    as G5.
  rewrite Hterms in G5. simpl in G3, G4, G5. subst t3 t4 t5.
  pose proof Hmodel as Hcalls.
  apply Tmodel_func_calls in Hcalls as (radius_ref & Href & ->).
  apply getitem_Ok_range in Href. rewrite length_fmap in Href.
  exists radius_ref. rewrite !app_nil_r. split; [ reflexivity | ].
  simpl. rewrite length_fmap.
  destruct (length_skip_ref (refindex cl) tspec_data 0) as [Hin Hout].
  destruct (0 <=? refindex cl) eqn:Hsign;
    [ apply Z.leb_le in Hsign | apply Z.leb_gt in Hsign ].
  - apply Hin. lia.
  - rewrite Hout by lia. reflexivity.
Qed.

Lemma lnlike_cost_witness :
  exists radius_ref,
    [Call_lnlike [5; 300]%float; Call_quad (PyFloat 200) (PyFloat 100)]
    = Call_lnlike [5; 300]%float
      :: ((fun row => Call_quad (PyFloat radius_ref) (PyFloat (radius row)))
            <$> skip_ref (refindex (Demo.meta 1 0)) 0 Demo.profile) /\
    length [Call_lnlike [5; 300]%float;
            Call_quad (PyFloat 200) (PyFloat 100)]
    = if 0 <=? refindex (Demo.meta 1 0) then length Demo.profile
      else S (length Demo.profile).
Proof.
  eapply (lnlike_cost Demo.extern [5; 300]%float [3; 1.8]%float
            [0.5; 0.5]%float Demo.profile Demo.single_beta (Demo.meta 1 0)).
  vm_compute. reflexivity.
Defined.
